(** * shareable-storage-haven: the file screen and the file server action

    A shallow embedding of the three source files of the repository:
    - [src/pages/Index.tsx], the current screen (module [Index]);
    - an earlier revision of the same screen (module [IndexLegacy]);
    - the server action [getFiles] (module [FilesAction]).

    The hosted platform (tabular data store, object storage) is outside the
    repository.  It is modelled by a table of rows, a bucket of objects and a
    [Fault] chosen by the environment for every request; the operators of the
    platform that the sources do not determine (pattern matching of ILIKE,
    the order of the values of a column, the public address of a key) are
    the fields of a [Backend]. *)

From Stdlib Require Import String Ascii List ZArith Bool Lia Sorted.
From Stdlib Require Import Permutation.
Import ListNotations.
Local Open Scope string_scope.
Local Open Scope list_scope.

Set Implicit Arguments.

(** ** JavaScript values *)

(** A string used as a condition: only the empty string is falsy. *)
Definition truthy (s : string) : bool := negb (s =? "").

(** An optional string ([undefined] or [null] when absent) used as a condition. *)
Definition truthy_opt (o : option string) : bool :=
  match o with
  | Some s => truthy s
  | None => false
  end.

(** [o || d] on strings. *)
Definition or_else (o : option string) (d : string) : string :=
  match o with
  | Some s => if truthy s then s else d
  | None => d
  end.

(** A number as [parseInt] yields it: an integer or [NaN]. *)
Inductive number : Type :=
| NaN
| Num (z : Z).

(** [s.split(c)] for a one-character separator. *)
Fixpoint split (c : ascii) (s : string) : list string :=
  match s with
  | EmptyString => [EmptyString]
  | String a s' =>
      if Ascii.eqb a c then EmptyString :: split c s'
      else match split c s' with
           | piece :: pieces => String a piece :: pieces
           | [] => [String a EmptyString]
           end
  end.

(** [l.pop()]: the last element, [undefined] on the empty array. *)
Fixpoint pop (l : list string) : option string :=
  match l with
  | [] => None
  | [x] => Some x
  | _ :: l' => pop l'
  end.

(** A possibly undefined string inside a template literal. *)
Definition interpolate (o : option string) : string :=
  match o with
  | Some s => s
  | None => "undefined"
  end.

(** [allowed.includes(s)] *)
Definition includes (allowed : list string) (s : string) : bool :=
  existsb (String.eqb s) allowed.

(** ** Data model *)

Record Error : Type := { message : string }.

(** The authenticated user of the auth provider. *)
Module User.
Record t : Type := { id : string; email : option string }.
End User.

(** A file picked in the browser. *)
Module File.
Record t : Type := { name : string; type : string; bytes : list Byte.byte }.
End File.

(** A row of the [files] table, as [select("*")] returns it. *)
Record FileRecord : Type := {
  id : string;
  filename : string;
  public_url : string;
  type : string;
  extension : string;
  shared_with : option (list string);
  fullname : string;
  created_at : string;
  user_id : string
}.

(** The object passed to [insert]; the store generates the other columns. *)
Record InsertPayload : Type := {
  ins_filename : string;
  ins_public_url : string;
  ins_user_id : string;
  ins_type : string;
  ins_extension : string;
  ins_fullname : string
}.

(** What the store fills in on insert. *)
Record Generated : Type := {
  gen_id : string;
  gen_created_at : string;
  gen_shared_with : option (list string)
}.

Definition row_of (p : InsertPayload) (g : Generated) : FileRecord :=
  {| id := gen_id g;
     filename := ins_filename p;
     public_url := ins_public_url p;
     type := ins_type p;
     extension := ins_extension p;
     shared_with := gen_shared_with g;
     fullname := ins_fullname p;
     created_at := gen_created_at g;
     user_id := ins_user_id p |}.

Record FetchFilesParams : Type := {
  fileType : option string;
  searchQuery : option string;
  sortBy : option string;
  limit : option number
}.

(** [fetchFiles()] without argument: the default [{}]. *)
Definition no_params : FetchFilesParams :=
  {| fileType := None; searchQuery := None; sortBy := None; limit := None |}.

Record Toast : Type := {
  title : string;
  description : string;
  variant : option string
}.

(** ** Queries on the [files] table *)

Inductive Filter : Type :=
| FOwnedOrShared (uid mail : string)
    (* .or(`user_id.eq.${uid},shared_with.cs.{${mail}}`), with [uid] and
       [mail] atoms of the filter grammar *)
| FEq (col val : string)        (* .eq(col, val) *)
| FIlike (col pat : string).    (* .ilike(col, pat) *)

Record Query : Type := {
  filters : list Filter;
  order : option (string * bool);   (* column, ascending *)
  limit_to : option Z
}.

Definition select_all : Query :=
  {| filters := []; order := None; limit_to := None |}.

Definition with_filter (f : Filter) (q : Query) : Query :=
  {| filters := filters q ++ [f]; order := order q; limit_to := limit_to q |}.

Definition with_order (col : string) (ascending : bool) (q : Query) : Query :=
  {| filters := filters q; order := Some (col, ascending); limit_to := limit_to q |}.

Definition with_limit (n : Z) (q : Query) : Query :=
  {| filters := filters q; order := order q; limit_to := Some n |}.

(** The operators of the platform that the sources leave open. *)
Record Backend : Type := {
  ilike : string -> string -> bool;            (* pattern, value *)
  col_leb : string -> string -> string -> bool; (* column, value, value *)
  getPublicUrl : string -> string              (* storage key *)
}.

(** The text columns of the table, by name. *)
Definition column (c : string) (r : FileRecord) : option string :=
  if c =? "id" then Some (id r)
  else if c =? "filename" then Some (filename r)
  else if c =? "public_url" then Some (public_url r)
  else if c =? "type" then Some (type r)
  else if c =? "extension" then Some (extension r)
  else if c =? "fullname" then Some (fullname r)
  else if c =? "created_at" then Some (created_at r)
  else if c =? "user_id" then Some (user_id r)
  else None.

Definition is_column (c : string) : bool :=
  includes ["id"; "filename"; "public_url"; "type"; "extension"; "fullname";
            "created_at"; "user_id"] c.

(** [shared_with @> {mail}]: a null array contains nothing. *)
Definition contains (sw : option (list string)) (mail : string) : bool :=
  match sw with
  | Some l => existsb (String.eqb mail) l
  | None => false
  end.

(** The ownership/sharing predicate of the scoped queries. *)
Definition visible_to (uid mail : string) (r : FileRecord) : bool :=
  (user_id r =? uid) || contains (shared_with r) mail.

Definition matches (B : Backend) (f : Filter) (r : FileRecord) : bool :=
  match f with
  | FOwnedOrShared uid mail => visible_to uid mail r
  | FEq c v =>
      match column c r with
      | Some x => x =? v
      | None => false
      end
  | FIlike c p =>
      match column c r with
      | Some x => ilike B p x
      | None => false
      end
  end.

Definition matches_all (B : Backend) (fs : list Filter) (r : FileRecord) : bool :=
  forallb (fun f => matches B f r) fs.

Definition filter_column (f : Filter) : option string :=
  match f with
  | FOwnedOrShared _ _ => None
  | FEq c _ => Some c
  | FIlike c _ => Some c
  end.

Definition columns_exist (q : Query) : bool :=
  forallb (fun f => match filter_column f with
                    | Some c => is_column c
                    | None => true
                    end) (filters q)
  && match order q with
     | Some (c, _) => is_column c
     | None => true
     end.

Section Ordering.
Variable A : Type.
Variable before : A -> A -> bool.

(** [x] goes in front of the first element it may precede. *)
Fixpoint place (x : A) (l : list A) : list A :=
  match l with
  | [] => [x]
  | y :: l' => if before x y then x :: l else y :: place x l'
  end.

Fixpoint arrange (l : list A) : list A :=
  match l with
  | [] => []
  | x :: l' => place x (arrange l')
  end.
End Ordering.

Definition sort_key (c : string) (r : FileRecord) : string :=
  match column c r with
  | Some v => v
  | None => ""
  end.

(** [a] may precede [b] in the order on column [c]. *)
Definition precedes (B : Backend) (c : string) (ascending : bool)
    (a b : FileRecord) : bool :=
  if ascending then col_leb B c (sort_key c a) (sort_key c b)
  else col_leb B c (sort_key c b) (sort_key c a).

Definition ordered (B : Backend) (o : option (string * bool))
    (rows : list FileRecord) : list FileRecord :=
  match o with
  | Some (c, asc) => arrange (precedes B c asc) rows
  | None => rows
  end.

Definition limited (n : option Z) (rows : list FileRecord) : list FileRecord :=
  match n with
  | Some k => firstn (Z.to_nat k) rows
  | None => rows
  end.

(** The rows a query selects from a table, or the store's complaint about
    a column that does not exist. *)
Definition run_query (B : Backend) (q : Query) (tbl : list FileRecord)
    : Error + list FileRecord :=
  if columns_exist q then
    inr (limited (limit_to q)
           (ordered B (order q) (filter (matches_all B (filters q)) tbl)))
  else inl {| message := "column does not exist" |}.

(** ** The screen, the platform and the requests between them *)

(** The React state of the screen; a handler reads the values of the render
    that created it. *)
Record Screen : Type := {
  files : list FileRecord;
  user : option User.t;
  selectedFile : option File.t;
  shareEmail : string;
  selectedFileId : option string;
  isUploading : bool
}.

Inductive Request : Type :=
| ReqSelect (q : Query)
| ReqSelectSharedWith (file_id : string)
| ReqUpdateSharedWith (file_id : string) (l : list string)
| ReqInsert (p : InsertPayload)
| ReqStorageUpload (key : string) (f : File.t)
| ReqStorageRemove (key : string).

Inductive LogEntry : Type :=
| LogText (label value : string)
| LogData (rows : option (list FileRecord))
| LogError (e : Error) (msg : string).

Record World : Type := {
  screen : Screen;
  table : list FileRecord;
  bucket : list (string * File.t);
  toasts : list Toast;
  requests : list Request;
  console : list LogEntry
}.

(** What the environment does to one request. *)
Inductive Fault : Type :=
| Served               (* the platform answers as modelled *)
| Fails (e : Error)    (* the answer carries [error], nothing is changed *)
| Rejects (e : Error). (* the awaited promise rejects *)

Record Response (A : Type) : Type := {
  data : option A;
  error : option Error
}.

(** ** Handlers as state transformers that may throw *)

Inductive Completion (A : Type) : Type :=
| Normal (a : A)
| Throw (e : Error).
Arguments Throw {A} e.

Definition Action (A : Type) : Type := World -> Completion A * World.

Definition ret {A : Type} (a : A) : Action A := fun w => (Normal a, w).

Definition throw {A : Type} (e : Error) : Action A := fun w => (Throw e, w).

Definition bind {A C : Type} (m : Action A) (k : A -> Action C) : Action C :=
  fun w =>
    match m w with
    | (Normal a, w') => k a w'
    | (Throw e, w') => (Throw e, w')
    end.

(** [try { m } catch (e) { h e }] *)
Definition catch_ {A : Type} (m : Action A) (h : Error -> Action A) : Action A :=
  fun w =>
    match m w with
    | (Normal a, w') => (Normal a, w')
    | (Throw e, w') => h e w'
    end.

(** [try { m } finally { f }] *)
Definition finally_ {A : Type} (m : Action A) (f : Action unit) : Action A :=
  fun w =>
    match m w with
    | (c, w') =>
        match f w' with
        | (Normal _, w'') => (c, w'')
        | (Throw e, w'') => (Throw e, w'')
        end
    end.

(** A call whose promise is not awaited: the caller goes on, and a rejection
    stays with the promise.  The caller's remaining steps touch other parts
    of the state than the call does, so its effects are taken in place. *)
Definition unawaited (m : Action unit) : Action unit :=
  fun w => (Normal tt, snd (m w)).

Notation "x <- m ;; k" := (bind m (fun x => k))
  (at level 61, m at next level, right associativity).
Notation "m ;; k" := (bind m (fun _ => k))
  (at level 61, right associativity).

Definition on_screen (f : Screen -> Screen) : Action unit :=
  fun w =>
    (Normal tt,
     {| screen := f (screen w); table := table w; bucket := bucket w;
        toasts := toasts w; requests := requests w; console := console w |}).

Definition setFiles (l : list FileRecord) : Action unit :=
  on_screen (fun s =>
    {| files := l; user := user s; selectedFile := selectedFile s;
       shareEmail := shareEmail s; selectedFileId := selectedFileId s;
       isUploading := isUploading s |}).

Definition setSelectedFile (f : option File.t) : Action unit :=
  on_screen (fun s =>
    {| files := files s; user := user s; selectedFile := f;
       shareEmail := shareEmail s; selectedFileId := selectedFileId s;
       isUploading := isUploading s |}).

Definition setShareEmail (e : string) : Action unit :=
  on_screen (fun s =>
    {| files := files s; user := user s; selectedFile := selectedFile s;
       shareEmail := e; selectedFileId := selectedFileId s;
       isUploading := isUploading s |}).

Definition setSelectedFileId (i : option string) : Action unit :=
  on_screen (fun s =>
    {| files := files s; user := user s; selectedFile := selectedFile s;
       shareEmail := shareEmail s; selectedFileId := i;
       isUploading := isUploading s |}).

Definition setIsUploading (b : bool) : Action unit :=
  on_screen (fun s =>
    {| files := files s; user := user s; selectedFile := selectedFile s;
       shareEmail := shareEmail s; selectedFileId := selectedFileId s;
       isUploading := b |}).

Definition toast (t : Toast) : Action unit :=
  fun w =>
    (Normal tt,
     {| screen := screen w; table := table w; bucket := bucket w;
        toasts := toasts w ++ [t]; requests := requests w;
        console := console w |}).

Definition console_log (l : LogEntry) : Action unit :=
  fun w =>
    (Normal tt,
     {| screen := screen w; table := table w; bucket := bucket w;
        toasts := toasts w; requests := requests w;
        console := console w ++ [l] |}).

(** The client sends a request. *)
Definition send (q : Request) : Action unit :=
  fun w =>
    (Normal tt,
     {| screen := screen w; table := table w; bucket := bucket w;
        toasts := toasts w; requests := requests w ++ [q];
        console := console w |}).

Definition set_table (t : list FileRecord) : Action unit :=
  fun w =>
    (Normal tt,
     {| screen := screen w; table := t; bucket := bucket w;
        toasts := toasts w; requests := requests w; console := console w |}).

Definition set_bucket (b : list (string * File.t)) : Action unit :=
  fun w =>
    (Normal tt,
     {| screen := screen w; table := table w; bucket := b;
        toasts := toasts w; requests := requests w; console := console w |}).

Definition failed {A : Type} (e : Error) : Response A :=
  {| data := None; error := Some e |}.

Definition answered {A : Type} (a : A) : Response A :=
  {| data := Some a; error := None |}.

(** [await query] for a select on [files]. *)
Definition await_select (B : Backend) (net : Fault) (q : Query)
    : Action (Response (list FileRecord)) :=
  send (ReqSelect q) ;;
  match net with
  | Served =>
      fun w =>
        match run_query B q (table w) with
        | inr rows => (Normal (answered rows), w)
        | inl e => (Normal (failed e), w)
        end
  | Fails e => ret (failed e)
  | Rejects e => throw e
  end.

Definition has_id (fid : string) (r : FileRecord) : bool := id r =? fid.

(** [.select("shared_with").eq("id", fid).single()]: exactly one row must
    match. *)
Definition await_select_shared_with (net : Fault) (fid : string)
    : Action (Response (option (list string))) :=
  send (ReqSelectSharedWith fid) ;;
  match net with
  | Served =>
      fun w =>
        match filter (has_id fid) (table w) with
        | [r] => (Normal (answered (shared_with r)), w)
        | _ => (Normal (failed {| message :=
                  "JSON object requested, multiple (or no) rows returned" |}), w)
        end
  | Fails e => ret (failed e)
  | Rejects e => throw e
  end.

Definition set_shared_with (l : list string) (r : FileRecord) : FileRecord :=
  {| id := id r; filename := filename r; public_url := public_url r;
     type := type r; extension := extension r; shared_with := Some l;
     fullname := fullname r; created_at := created_at r;
     user_id := user_id r |}.

(** [.update({ shared_with: l }).eq("id", fid)] *)
Definition await_update_shared_with (net : Fault) (fid : string)
    (l : list string) : Action (option Error) :=
  send (ReqUpdateSharedWith fid l) ;;
  match net with
  | Served =>
      fun w =>
        (set_table
           (map (fun r => if has_id fid r then set_shared_with l r else r)
                (table w)) ;;
         ret None) w
  | Fails e => ret (Some e)
  | Rejects e => throw e
  end.

(** [.insert(p)]: the store adds the row with the columns it generates. *)
Definition await_insert (net : Fault) (p : InsertPayload) (g : Generated)
    : Action (option Error) :=
  send (ReqInsert p) ;;
  match net with
  | Served =>
      fun w => (set_table (table w ++ [row_of p g]) ;; ret None) w
  | Fails e => ret (Some e)
  | Rejects e => throw e
  end.

Definition stored (key : string) (b : list (string * File.t)) : bool :=
  existsb (fun kv => fst kv =? key) b.

(** [storage.from("files").upload(key, f)]: no overwrite of a taken key. *)
Definition await_upload (net : Fault) (key : string) (f : File.t)
    : Action (option Error) :=
  send (ReqStorageUpload key f) ;;
  match net with
  | Served =>
      fun w =>
        if stored key (bucket w)
        then (Normal (Some {| message := "The resource already exists" |}), w)
        else (set_bucket (bucket w ++ [(key, f)]) ;; ret None) w
  | Fails e => ret (Some e)
  | Rejects e => throw e
  end.

(** [user?.id] and [user?.email] when both are truthy. *)
Definition resolved (u : option User.t) : option (string * string) :=
  match u with
  | Some u =>
      match User.email u with
      | Some mail =>
          if truthy (User.id u) && truthy mail then Some (User.id u, mail)
          else None
      | None => None
      end
  | None => None
  end.

Definition destructive : option string := Some "destructive".

(** ** [src/pages/Index.tsx] *)

Module Index.
Section Handlers.
Variable B : Backend.
(** The render whose closures the handlers are. *)
Variable r : Screen.

Definition allowedSortColumns : list string :=
  ["created_at"; "filename"; "type"].

Definition finalSortBy (sortBy : string) : string :=
  if includes allowedSortColumns sortBy then sortBy else "created_at".

(** The query that [fetchFiles] builds before it awaits it. *)
Definition fetchFiles_query (uid mail : string) (p : FetchFilesParams)
    : Query :=
  let sortBy := match sortBy p with Some s => s | None => "created_at" end in
  let query := with_filter (FOwnedOrShared uid mail) select_all in
  let query :=
    match fileType p with
    | Some t => if truthy t then with_filter (FEq "type" t) query else query
    | None => query
    end in
  let query :=
    if truthy_opt (searchQuery p)
    then with_filter
           (FIlike "filename"
              ("%" ++ interpolate (searchQuery p) ++ "%")%string)
           query
    else query in
  let query := with_order (finalSortBy sortBy) false query in
  match limit p with
  | Some (Num n) =>
      if negb (n =? 0)%Z && (0 <? n)%Z && (n <=? 100)%Z
      then with_limit n query
      else query
  | Some NaN => query
  | None => query
  end.

Definition fetchFiles (p : FetchFilesParams) (net : Fault) : Action unit :=
  match resolved (user r) with
  | None => ret tt
  | Some (uid, mail) =>
      catch_
        (resp <- await_select B net (fetchFiles_query uid mail p) ;;
         match error resp with
         | Some e =>
             toast {| title := "Error fetching files";
                      description := message e;
                      variant := destructive |}
         | None =>
             setFiles (match data resp with Some l => l | None => [] end)
         end)
        (fun e =>
           toast {| title := "Error fetching files";
                    description := message e;
                    variant := destructive |})
  end.

Definition handleUpload (uuid : string) (net_upload net_insert : Fault)
    (g : Generated) (net_refresh : Fault) : Action unit :=
  match selectedFile r, user r with
  | Some file, Some u =>
      setIsUploading true ;;
      finally_
        (catch_
           (let fileExt := pop (split "." (File.name file)) in
            let fileName := (uuid ++ "." ++ interpolate fileExt)%string in
            uploadError <- await_upload net_upload fileName file ;;
            match uploadError with
            | Some e => throw e
            | None =>
                let publicUrl := getPublicUrl B fileName in
                dbError <-
                  await_insert net_insert
                    {| ins_filename := File.name file;
                       ins_public_url := publicUrl;
                       ins_user_id := User.id u;
                       ins_type := File.type file;
                       ins_extension := or_else fileExt "";
                       ins_fullname := or_else (User.email u) "Unknown" |}
                    g ;;
                match dbError with
                | Some e => throw e
                | None =>
                    toast {| title := "Success";
                             description := "File uploaded successfully";
                             variant := None |} ;;
                    setSelectedFile None ;;
                    unawaited (fetchFiles no_params net_refresh)
                end
            end)
           (fun e =>
              toast {| title := "Error uploading file";
                       description := message e;
                       variant := destructive |}))
        (setIsUploading false)
  | _, _ => ret tt
  end.

Definition handleShare (net_read net_write net_refresh : Fault)
    : Action unit :=
  match selectedFileId r with
  | Some fid =>
      if truthy fid && truthy (shareEmail r) then
        catch_
          (currentFile <- await_select_shared_with net_read fid ;;
           match error currentFile with
           | Some e => throw e
           | None =>
               let updatedSharedWith :=
                 match data currentFile with
                 | Some (Some l) => l
                 | _ => []
                 end ++ [shareEmail r] in
               err <- await_update_shared_with net_write fid
                        updatedSharedWith ;;
               match err with
               | Some e => throw e
               | None =>
                   toast {| title := "Success";
                            description :=
                              ("File shared with " ++ shareEmail r)%string;
                            variant := None |} ;;
                   setShareEmail "" ;;
                   setSelectedFileId None ;;
                   unawaited (fetchFiles no_params net_refresh)
               end
           end)
          (fun e =>
             toast {| title := "Error sharing file";
                      description := message e;
                      variant := destructive |})
      else ret tt
  | None => ret tt
  end.
End Handlers.
End Index.

(** ** The earlier revision of the screen

    It takes no query parameters and differs from [Index.tsx] in
    [fetchFiles]; [handleUpload] is the same text. *)

Module IndexLegacy.
Section Handlers.
Variable B : Backend.
Variable r : Screen.

Definition fetchFiles (net : Fault) : Action unit :=
  resp <- await_select B net (with_order "created_at" false select_all) ;;
  match error resp with
  | Some e =>
      toast {| title := "Error fetching files";
               description := message e;
               variant := destructive |}
  | None =>
      setFiles (match data resp with Some l => l | None => [] end)
  end.

Definition handleUpload (uuid : string) (net_upload net_insert : Fault)
    (g : Generated) (net_refresh : Fault) : Action unit :=
  match selectedFile r, user r with
  | Some file, Some u =>
      setIsUploading true ;;
      finally_
        (catch_
           (let fileExt := pop (split "." (File.name file)) in
            let fileName := (uuid ++ "." ++ interpolate fileExt)%string in
            uploadError <- await_upload net_upload fileName file ;;
            match uploadError with
            | Some e => throw e
            | None =>
                let publicUrl := getPublicUrl B fileName in
                dbError <-
                  await_insert net_insert
                    {| ins_filename := File.name file;
                       ins_public_url := publicUrl;
                       ins_user_id := User.id u;
                       ins_type := File.type file;
                       ins_extension := or_else fileExt "";
                       ins_fullname := or_else (User.email u) "Unknown" |}
                    g ;;
                match dbError with
                | Some e => throw e
                | None =>
                    toast {| title := "Success";
                             description := "File uploaded successfully";
                             variant := None |} ;;
                    setSelectedFile None ;;
                    unawaited (fetchFiles net_refresh)
                end
            end)
           (fun e =>
              toast {| title := "Error uploading file";
                       description := message e;
                       variant := destructive |}))
        (setIsUploading false)
  | _, _ => ret tt
  end.
End Handlers.
End IndexLegacy.

(** ** The server action [getFiles]

    The client of the data store, created before the [try], is the
    [Backend] and the table of the [World]. *)

Module FilesAction.
Section Action.
Variable B : Backend.
(** The serialised form in which the rows leave the action. *)
Variable Json : Type.
(** [parseStringify] of [@/lib/utils], not among the sources. *)
Variable parseStringify : option (list FileRecord) -> Json.

Record Props : Type := { email : option string; userId : option string }.

Inductive Returned : Type :=
| Failure (error : string) (success : bool)   (* with [data: null] *)
| Rows (j : Json).

Definition handleError {A : Type} (e : Error) (msg : string) : Action A :=
  console_log (LogError e msg) ;;
  throw e.

Definition getFiles (props : Props) (net : Fault) : Action Returned :=
  catch_
    (if negb (truthy_opt (userId props))
     then throw {| message := "User ID is required" |}
     else if negb (truthy_opt (email props))
     then throw {| message := "Email is required" |}
     else
       console_log (LogText "UserId: " (interpolate (userId props))) ;;
       console_log (LogText "Email: " (interpolate (email props))) ;;
       resp <-
         await_select B net
           (with_order "created_at" false
              (with_filter
                 (FOwnedOrShared (interpolate (userId props))
                                 (interpolate (email props)))
                 select_all)) ;;
       match error resp with
       | Some e =>
           ret (Failure (or_else (Some (message e)) "Failed to fetch files")
                        false)
       | None =>
           console_log (LogData (data resp)) ;;
           ret (Rows (parseStringify (data resp)))
       end)
    (fun e => handleError e "Failed to get files").
End Action.
End FilesAction.

(** ** Vocabulary of the statements *)

(** The file belongs to the user or names the user's address. *)
Definition Visible (uid mail : string) (F : FileRecord) : Prop :=
  user_id F = uid \/ exists l, shared_with F = Some l /\ In mail l.

Definition params_sortBy (s : option string) (p : FetchFilesParams)
    : FetchFilesParams :=
  {| fileType := fileType p; searchQuery := searchQuery p; sortBy := s;
     limit := limit p |}.

Definition params_limit (l : option number) (p : FetchFilesParams)
    : FetchFilesParams :=
  {| fileType := fileType p; searchQuery := searchQuery p;
     sortBy := sortBy p; limit := l |}.

(** [sortBy = "created_at"] as the default of the parameter. *)
Definition sortBy_or_default (p : FetchFilesParams) : string :=
  match sortBy p with
  | Some s => s
  | None => "created_at"
  end.

(** No limit in the range that [fetchFiles] accepts. *)
Definition unlimited (p : FetchFilesParams) : Prop :=
  forall n, limit p = Some (Num n) -> (n < 1 \/ 100 < n)%Z.

Definition fetch_error_toast (e : Error) : Toast :=
  {| title := "Error fetching files"; description := message e;
     variant := destructive |}.

Definition upload_error_toast (e : Error) : Toast :=
  {| title := "Error uploading file"; description := message e;
     variant := destructive |}.

Definition share_error_toast (e : Error) : Toast :=
  {| title := "Error sharing file"; description := message e;
     variant := destructive |}.

(** The error, if any, with which a request comes back. *)
Definition fault_error (net : Fault) : option Error :=
  match net with
  | Served => None
  | Fails e => Some e
  | Rejects e => Some e
  end.

(** The error, if any, with which the write of an object comes back. *)
Definition upload_failure (net : Fault) (key : string)
    (b : list (string * File.t)) : option Error :=
  match net with
  | Served =>
      if stored key b then Some {| message := "The resource already exists" |}
      else None
  | Fails e => Some e
  | Rejects e => Some e
  end.

(** The query of the server action. *)
Definition getFiles_query (uid mail : string) : Query :=
  with_order "created_at" false
    (with_filter (FOwnedOrShared uid mail) select_all).

(** The storage key that [handleUpload] derives. *)
Definition storage_key (uuid : string) (file : File.t) : string :=
  (uuid ++ "." ++ interpolate (pop (split "." (File.name file))))%string.

(** The object that [handleUpload] inserts. *)
Definition upload_payload (B : Backend) (uuid : string) (file : File.t)
    (u : User.t) : InsertPayload :=
  {| ins_filename := File.name file;
     ins_public_url := getPublicUrl B (storage_key uuid file);
     ins_user_id := User.id u;
     ins_type := File.type file;
     ins_extension := or_else (pop (split "." (File.name file))) "";
     ins_fullname := or_else (User.email u) "Unknown" |}.

Definition upload_success_toast : Toast :=
  {| title := "Success"; description := "File uploaded successfully";
     variant := None |}.

Definition share_success_toast (mail : string) : Toast :=
  {| title := "Success";
     description := ("File shared with " ++ mail)%string;
     variant := None |}.

(** What the read of [handleShare] comes back with: an error, or the
    [shared_with] of the one row with the id. *)
Definition read_shared_with (net : Fault) (fid : string)
    (tbl : list FileRecord) : Error + option (list string) :=
  match net with
  | Served =>
      match filter (has_id fid) tbl with
      | [row] => inr (shared_with row)
      | _ => inl {| message :=
               "JSON object requested, multiple (or no) rows returned" |}
      end
  | Fails e => inl e
  | Rejects e => inl e
  end.

(** [shared_with || []] *)
Definition or_empty (sw : option (list string)) : list string :=
  match sw with
  | Some l => l
  | None => []
  end.

(** The table after [shared_with] of the rows with the id is set. *)
Definition shared_with_set (fid : string) (l : list string)
    (tbl : list FileRecord) : list FileRecord :=
  map (fun r => if has_id fid r then set_shared_with l r else r) tbl.

(** The rows of a table that pass the filters of a query, in the order of
    the query, before any limit. *)
Definition selected (B : Backend) (q : Query) (tbl : list FileRecord)
    : list FileRecord :=
  ordered B (order q) (filter (matches_all B (filters q)) tbl).

(** Rows in descending order of their creation time. *)
Definition newest_first (B : Backend) (rows : list FileRecord) : Prop :=
  Sorted (fun a b =>
            col_leb B "created_at" (created_at b) (created_at a) = true)
         rows.

Definition has_dot (s : string) : bool :=
  existsb (Ascii.eqb ".") (list_ascii_of_string s).

Definition is_select (q : Request) : bool :=
  match q with
  | ReqSelect _ => true
  | _ => false
  end.

Definition is_insert (q : Request) : bool :=
  match q with
  | ReqInsert _ => true
  | _ => false
  end.


(** The user picks a file to share and types an address. *)
Definition begin_share (fid mail : string) : Action unit :=
  setSelectedFileId (Some fid) ;; setShareEmail mail.

(** A handler of the current render is run. *)
Definition click (h : Screen -> Action unit) : Action unit :=
  fun w => h (screen w) w.

(** The user picks the file, types the address and presses Share; every
    request is served. *)
Definition share_served (B : Backend) (fid mail : string) : Action unit :=
  begin_share fid mail ;;
  click (fun s => Index.handleShare B s Served Served Served).

(** ** A sample platform and sample data *)

Definition lower (a : ascii) : ascii :=
  let n := nat_of_ascii a in
  if (65 <=? n)%nat && (n <=? 90)%nat then ascii_of_nat (n + 32) else a.

Fixpoint lowercase (s : string) : string :=
  match s with
  | EmptyString => EmptyString
  | String a s' => String (lower a) (lowercase s')
  end.

(** LIKE with the wildcards [%] and [_]. *)
Fixpoint like (p v : string) : bool :=
  match p with
  | EmptyString =>
      match v with
      | EmptyString => true
      | String _ _ => false
      end
  | String c p' =>
      if Ascii.eqb c "%" then
        (fix any (v : string) : bool :=
           like p' v ||
           match v with
           | EmptyString => false
           | String _ v' => any v'
           end) v
      else
        match v with
        | EmptyString => false
        | String d v' => (Ascii.eqb c "_" || Ascii.eqb c d) && like p' v'
        end
  end.

Definition sample_backend : Backend :=
  {| ilike := fun p v => like (lowercase p) (lowercase v);
     col_leb := fun _ => String.leb;
     getPublicUrl := fun key =>
       ("https://files.example/storage/v1/object/public/files/" ++ key)%string
  |}.

Definition alice : User.t :=
  {| User.id := "u-alice"; User.email := Some "alice@example.org" |}.

Definition notes_txt : FileRecord :=
  {| id := "f1"; filename := "notes.txt"; public_url := "https://files.example/1";
     type := "text/plain"; extension := "txt"; shared_with := None;
     fullname := "alice@example.org"; created_at := "2024-01-01T10:00:00Z";
     user_id := "u-alice" |}.

Definition photo_png : FileRecord :=
  {| id := "f2"; filename := "photo.png"; public_url := "https://files.example/2";
     type := "image/png"; extension := "png";
     shared_with := Some ["alice@example.org"];
     fullname := "bob@example.org"; created_at := "2024-01-02T10:00:00Z";
     user_id := "u-bob" |}.

Definition private_pdf : FileRecord :=
  {| id := "f3"; filename := "Report.PDF"; public_url := "https://files.example/3";
     type := "application/pdf"; extension := "PDF"; shared_with := None;
     fullname := "bob@example.org"; created_at := "2024-01-03T10:00:00Z";
     user_id := "u-bob" |}.

Definition a_txt : File.t :=
  {| File.name := "a.txt"; File.type := "text/plain"; File.bytes := [] |}.

Definition screen_of (u : option User.t) : Screen :=
  {| files := []; user := u; selectedFile := None; shareEmail := "";
     selectedFileId := None; isUploading := false |}.

Definition world_of (s : Screen) (t : list FileRecord) : World :=
  {| screen := s; table := t; bucket := []; toasts := []; requests := [];
     console := [] |}.

Definition sample_world : World :=
  world_of (screen_of (Some alice)) [notes_txt; photo_png; private_pdf].

(** Alice has picked [a.txt]. *)
Definition upload_screen : Screen :=
  {| files := []; user := Some alice; selectedFile := Some a_txt;
     shareEmail := ""; selectedFileId := None; isUploading := false |}.

Definition upload_world : World :=
  world_of upload_screen [notes_txt; photo_png; private_pdf].

(** Alice is about to share her notes with Carol. *)
Definition share_screen : Screen :=
  {| files := [notes_txt; photo_png]; user := Some alice;
     selectedFile := None; shareEmail := "carol@example.org";
     selectedFileId := Some "f1"; isUploading := false |}.

Definition share_world : World :=
  world_of share_screen [notes_txt; photo_png; private_pdf].

Definition readme : File.t :=
  {| File.name := "README"; File.type := ""; File.bytes := [] |}.

Definition readme_screen : Screen :=
  {| files := []; user := Some alice; selectedFile := Some readme;
     shareEmail := ""; selectedFileId := None; isUploading := false |}.

Definition sample_uuid : string := "123e4567-e89b-12d3-a456-426614174000".

Definition sample_generated : Generated :=
  {| gen_id := "f4"; gen_created_at := "2024-01-04T10:00:00Z";
     gen_shared_with := None |}.

(** ** The rest of the screen: file input, effect and rendering *)

Definition setUser (u : option User.t) : Action unit :=
  on_screen (fun s =>
    {| files := files s; user := u; selectedFile := selectedFile s;
       shareEmail := shareEmail s; selectedFileId := selectedFileId s;
       isUploading := isUploading s |}).

(** The state of the first render: the arguments of the [useState] calls. *)
Definition initial_screen : Screen :=
  {| files := []; user := None; selectedFile := None; shareEmail := "";
     selectedFileId := None; isUploading := false |}.

(** [handleFileChange], the same text in both revisions; [picked] is
    [event.target.files], a list of files or [null]. *)
Definition handleFileChange (picked : option (list File.t)) : Action unit :=
  match picked with
  | Some (file :: _) => setSelectedFile (Some file)
  | Some [] => ret tt
  | None => ret tt
  end.

(** [disabled={!selectedFile || isUploading}] of the upload button. *)
Definition upload_disabled (s : Screen) : bool :=
  match selectedFile s with
  | Some _ => false
  | None => true
  end || isUploading s.

(** [{isUploading ? "Uploading..." : "Upload"}] *)
Definition upload_label (s : Screen) : string :=
  if isUploading s then "Uploading..." else "Upload".

(** [{selectedFileId && (...)}]: the address input and its button. *)
Definition share_input_shown (s : Screen) : bool :=
  truthy_opt (selectedFileId s).

(** [{file.shared_with?.join(", ") || "Not shared"}] *)
Definition shared_with_cell (f : FileRecord) : string :=
  or_else (option_map (String.concat ", ") (shared_with f)) "Not shared".

(** [searchParams.get(name)] for the four names the effect reads; [None]
    is [null]. *)
Record SearchParams : Type := {
  sp_query : option string;
  sp_type : option string;
  sp_sort : option string;
  sp_limit : option string
}.

(** The screen in the browser: where the router points, and whether the
    listener of the auth events is registered. *)
Record Page : Type := {
  world : World;
  route : string;
  subscribed : bool
}.

Definition navigate (to : string) (pg : Page) : Page :=
  {| world := world pg; route := to; subscribed := subscribed pg |}.

(** A call that is not awaited, inside the page. *)
Definition in_world (m : Action unit) (pg : Page) : Page :=
  {| world := snd (m (world pg)); route := route pg;
     subscribed := subscribed pg |}.

(** [s || undefined] *)
Definition or_undefined (s : string) : option string :=
  if truthy s then Some s else None.

(** [checkUser] of the effect, the same text in both revisions; [session]
    is the [user] that [auth.getUser()] answers with. *)
Definition checkUser (session : option User.t) (pg : Page) : Page :=
  match session with
  | None => navigate "/auth" pg
  | Some u => in_world (setUser (Some u)) pg
  end.

(** The listener that the effect registers, and its removal. *)
Definition on_auth_event (event : string) (pg : Page) : Page :=
  if subscribed pg then
    if event =? "SIGNED_OUT" then navigate "/auth" pg else pg
  else pg.

Definition unsubscribe (pg : Page) : Page :=
  {| world := world pg; route := route pg; subscribed := false |}.

Module IndexEffect.
Section Effect.
Variable B : Backend.
(** [parseInt] of the language, on the text of the [limit] parameter. *)
Variable parseInt : string -> number.
(** The render that created the effect. *)
Variable r : Screen.

(** The argument of [fetchFiles] in the effect. *)
Definition effect_params (sp : SearchParams) : FetchFilesParams :=
  let query := or_else (sp_query sp) "" in
  let type := or_else (sp_type sp) "" in
  let sort := or_else (sp_sort sp) "created_at" in
  let limit :=
    match sp_limit sp with
    | Some l => if truthy l then Some (parseInt l) else None
    | None => None
    end in
  {| fileType := or_undefined type;
     searchQuery := or_undefined query;
     sortBy := Some sort;
     limit := limit |}.

Definition effect (session : option User.t) (sp : SearchParams)
    (net : Fault) (pg : Page) : Page :=
  let pg := checkUser session pg in
  let pg :=
    in_world (unawaited (Index.fetchFiles B r (effect_params sp) net)) pg in
  {| world := world pg; route := route pg; subscribed := true |}.
End Effect.
End IndexEffect.

(** The world with the state of the screen put back to [s]. *)
Definition keep_screen (s : Screen) (w : World) : World :=
  {| screen := s; table := table w; bucket := bucket w; toasts := toasts w;
     requests := requests w; console := console w |}.

(** A call that is not awaited and whose answer comes when the screen is
    no longer mounted: its request was sent and its notification is shown,
    its setters of the state do nothing. *)
Definition after_unmount (m : Action unit) (pg : Page) : Page :=
  {| world := keep_screen (screen (world pg)) (snd (m (world pg)));
     route := route pg; subscribed := subscribed pg |}.

Module IndexLegacyEffect.
Section Effect.
Variable B : Backend.

(** [checkUser()] and [fetchFiles()] are both started and neither is
    awaited: [answered_first] says that the select is answered before
    [auth.getUser()].  Without a session [checkUser] leaves for [/auth]:
    the screen is unmounted, the cleanup of the effect removes the
    listener, and an answer of the select that comes later sets nothing. *)
Definition effect (session : option User.t) (net : Fault)
    (answered_first : bool) (pg : Page) : Page :=
  let fetchFiles := unawaited (IndexLegacy.fetchFiles B net) in
  let pg :=
    if answered_first then checkUser session (in_world fetchFiles pg)
    else
      match session with
      | Some _ => in_world fetchFiles (checkUser session pg)
      | None => after_unmount fetchFiles (checkUser session pg)
      end in
  {| world := world pg; route := route pg;
     subscribed := match session with Some _ => true | None => false end |}.
End Effect.
End IndexLegacyEffect.

(** A page that has just been opened at [/]. *)
Definition fresh_page (t : list FileRecord) : Page :=
  {| world := world_of initial_screen t; route := "/"; subscribed := false |}.

(** A [parseInt] for the examples: blanks, a sign, then decimal digits as
    far as they go. *)
Definition digit (c : ascii) : option Z :=
  let n := nat_of_ascii c in
  if (48 <=? n)%nat && (n <=? 57)%nat then Some (Z.of_nat (n - 48)) else None.

Fixpoint leading_digits (s : string) (acc : option Z) : option Z :=
  match s with
  | EmptyString => acc
  | String c s' =>
      match digit c with
      | Some d =>
          leading_digits s'
            (Some (10 * match acc with Some a => a | None => 0 end + d)%Z)
      | None => acc
      end
  end.

Fixpoint skip_blanks (s : string) : string :=
  match s with
  | String c s' => if Ascii.eqb c " " then skip_blanks s' else s
  | EmptyString => s
  end.

Definition sample_parseInt (s : string) : number :=
  let signed (sign : Z) (t : string) :=
    match leading_digits t None with
    | Some z => Num (sign * z)
    | None => NaN
    end in
  match skip_blanks s with
  | String c t =>
      if Ascii.eqb c "-" then signed (-1)%Z t
      else if Ascii.eqb c "+" then signed 1%Z t
      else signed 1%Z (String c t)
  | EmptyString => NaN
  end.

Definition bob : User.t :=
  {| User.id := "u-bob"; User.email := Some "bob@example.org" |}.

(** A user that signed in by phone: no address. *)
Definition dana : User.t :=
  {| User.id := "u-dana"; User.email := None |}.

Definition dana_screen : Screen :=
  {| files := []; user := Some dana; selectedFile := Some a_txt;
     shareEmail := ""; selectedFileId := None; isUploading := false |}.

(** The columns of a row other than [shared_with]. *)
Definition other_columns (r : FileRecord) : FileRecord :=
  set_shared_with [] r.

(** The addresses a row is shared with only grow. *)
Definition grows (old new : FileRecord) : Prop :=
  exists added,
    or_empty (shared_with new) = or_empty (shared_with old) ++ added.

(** The requests that read the table: the select of rows and the select
    of [shared_with] by id. *)
Definition is_read (q : Request) : bool :=
  match q with
  | ReqSelect _ => true
  | ReqSelectSharedWith _ => true
  | _ => false
  end.

Definition reads (l : list Request) : list Request := filter is_read l.

Definition params_fileType (t : option string) (p : FetchFilesParams)
    : FetchFilesParams :=
  {| fileType := t; searchQuery := searchQuery p; sortBy := sortBy p;
     limit := limit p |}.

Definition params_searchQuery (q : option string) (p : FetchFilesParams)
    : FetchFilesParams :=
  {| fileType := fileType p; searchQuery := q; sortBy := sortBy p;
     limit := limit p |}.

(** The rows of the table that pass the filters of [fetchFiles]. *)
Definition matching (B : Backend) (uid mail : string) (p : FetchFilesParams)
    (tbl : list FileRecord) : list FileRecord :=
  filter (matches_all B (filters (Index.fetchFiles_query uid mail p))) tbl.

(** A select of rows that starts with the ownership filter of the user of
    the render. *)
Definition scoped_read (r : Screen) (q : Request) : Prop :=
  exists uid mail query rest,
    resolved (user r) = Some (uid, mail) /\
    q = ReqSelect query /\
    filters query = FOwnedOrShared uid mail :: rest.

(** The select of [shared_with] of the picked file, by its id alone. *)
Definition read_by_id (r : Screen) (q : Request) : Prop :=
  exists fid, selectedFileId r = Some fid /\ q = ReqSelectSharedWith fid.

(** ** Ids and addresses in the text of the filter

    [fetchFiles] and [getFiles] paste the id and the address into the text
    of the [or] filter, and [FOwnedOrShared] reads that text as the two
    comparisons it is written for.  The text is these two comparisons when
    the id and the address hold no character that the grammar of the
    filter or the array literal gives a meaning to: commas, parentheses,
    braces, quotes, backslashes, blanks.  An id of letters, digits, [-] and
    [_] (as a UUID is) and an address of these, [.], [+] and an [@] hold
    none. *)
Definition is_letter_or_digit (c : ascii) : bool :=
  let n := nat_of_ascii c in
  ((48 <=? n)%nat && (n <=? 57)%nat) ||
  ((65 <=? n)%nat && (n <=? 90)%nat) ||
  ((97 <=? n)%nat && (n <=? 122)%nat).

Definition id_char (c : ascii) : bool :=
  is_letter_or_digit c || Ascii.eqb c "-" || Ascii.eqb c "_".

Definition mail_char (c : ascii) : bool :=
  id_char c || Ascii.eqb c "@" || Ascii.eqb c "." || Ascii.eqb c "+".

Definition id_atom (s : string) : bool :=
  forallb id_char (list_ascii_of_string s).

Definition mail_atom (s : string) : bool :=
  forallb mail_char (list_ascii_of_string s) &&
  existsb (Ascii.eqb "@") (list_ascii_of_string s).

(** The store's order on a column is a total order. *)
Definition total_order (le : string -> string -> bool) : Prop :=
  (forall a b, le a b = true \/ le b a = true) /\
  (forall a b c, le a b = true -> le b c = true -> le a c = true) /\
  (forall a b, le a b = true -> le b a = true -> a = b).

(** Rows in descending order of column [c], as the store has it. *)
Definition descending (B : Backend) (c : string) (rows : list FileRecord)
    : Prop :=
  Sorted (fun a b => col_leb B c (sort_key c b) (sort_key c a) = true) rows.

(** A parameter of the address that is absent or empty. *)
Definition blank (o : option string) : Prop := o = None \/ o = Some "".

(** The select without any filter that the earlier revision sends. *)
Definition unscoped_select : Request :=
  ReqSelect {| filters := []; order := Some ("created_at", false);
               limit_to := None |}.

(** * Properties *)

(** ** Strings: [split] and [pop] *)

Lemma split_not_nil (c : ascii) (s : string) : split c s <> [].
Proof.
  destruct s as [|a s]; simpl; [discriminate|].
  destruct (Ascii.eqb a c); [discriminate|].
  destruct (split c s); discriminate.
Qed.

Lemma pop_cons (x : string) (l : list string) : l <> [] -> pop (x :: l) = pop l.
Proof. destruct l; [congruence | reflexivity]. Qed.

Lemma pop_head_irrelevant (x y : string) (l : list string) :
  l <> [] -> pop (x :: l) = pop (y :: l).
Proof. intros H. rewrite !pop_cons by assumption. reflexivity. Qed.

Lemma pop_split_defined (c : ascii) (s : string) :
  exists e, pop (split c s) = Some e.
Proof.
  assert (H : forall l, l <> [] -> exists e, pop l = Some e).
  { induction l as [|x l IH]; [congruence|]. intros _.
    destruct l as [|y l]; [exists x; reflexivity|].
    rewrite pop_cons by discriminate. apply IH. discriminate. }
  apply H, split_not_nil.
Qed.

Lemma has_dot_cons (a : ascii) (s : string) :
  has_dot (String a s) = Ascii.eqb "." a || has_dot s.
Proof. reflexivity. Qed.

Lemma split_without_dot (s : string) : has_dot s = false -> split "." s = [s].
Proof.
  induction s as [|a s IH]; [reflexivity|].
  rewrite has_dot_cons. intros H. apply orb_false_iff in H as [Ha Hs].
  simpl. rewrite Ascii.eqb_sym, Ha, (IH Hs). reflexivity.
Qed.

Lemma split_after_dot (pre suf : string) :
  exists x l,
    split "." (pre ++ String "." suf)%string = x :: l /\ l <> [] /\
    pop l = pop (split "." suf).
Proof.
  induction pre as [|a pre (x & l & E & Hl & Hp)].
  - simpl. exists EmptyString, (split "." suf).
    repeat split. apply split_not_nil.
  - change (String a pre ++ String "." suf)%string
      with (String a (pre ++ String "." suf)%string).
    cbn [split]. rewrite E. destruct (Ascii.eqb a ".").
    + exists EmptyString, (x :: l). repeat split; [discriminate|].
      rewrite pop_cons by assumption. exact Hp.
    + exists (String a x), l. repeat split; assumption.
Qed.

(** The piece after the last dot. *)
Lemma pop_split_suffix (pre suf : string) :
  has_dot suf = false ->
  pop (split "." (pre ++ "." ++ suf)%string) = Some suf.
Proof.
  intros H. change (pre ++ "." ++ suf)%string with (pre ++ String "." suf)%string.
  destruct (split_after_dot pre suf) as (x & l & E & Hl & Hp).
  rewrite E, pop_cons, Hp, split_without_dot by assumption. reflexivity.
Qed.

Lemma pop_split_whole (s : string) :
  has_dot s = false -> pop (split "." s) = Some s.
Proof. intros H. rewrite split_without_dot by assumption. reflexivity. Qed.

Lemma pop_split_empty (s : string) :
  pop (split "." s) = Some EmptyString ->
  s = EmptyString \/ exists pre, s = (pre ++ ".")%string.
Proof.
  induction s as [|a s IH]; intros H; [left; reflexivity|]. right.
  cbn [split] in H. destruct (Ascii.eqb_spec a ".") as [->|Ha].
  - rewrite pop_cons in H by apply split_not_nil.
    destruct (IH H) as [->|[pre ->]].
    + exists EmptyString. reflexivity.
    + exists (String "." pre). reflexivity.
  - destruct (split "." s) as [|piece pieces] eqn:E.
    { exfalso. eapply split_not_nil; eassumption. }
    destruct pieces as [|p2 pieces]; [discriminate|].
    rewrite pop_cons in H by discriminate.
    rewrite <- (pop_cons piece) in H by discriminate.
    destruct (IH H) as [->|[pre ->]]; [discriminate|].
    exists (String a pre). reflexivity.
Qed.

Lemma or_else_empty (s : string) : or_else (Some s) "" = s.
Proof.
  unfold or_else, truthy. destruct (String.eqb_spec s ""); subst; reflexivity.
Qed.

(** ** Ordering of rows *)

Section OrderingFacts.
Variable A : Type.
Variable before : A -> A -> bool.

Lemma place_In (x y : A) (l : list A) :
  In y (place before x l) <-> y = x \/ In y l.
Proof.
  induction l as [|z l IH]; simpl.
  - intuition congruence.
  - destruct (before x z); simpl; [intuition congruence|].
    rewrite IH. intuition congruence.
Qed.

Lemma arrange_In (y : A) (l : list A) :
  In y (arrange before l) <-> In y l.
Proof.
  induction l as [|z l IH]; simpl; [reflexivity|].
  rewrite place_In, IH. intuition congruence.
Qed.

Lemma place_length (x : A) (l : list A) :
  length (place before x l) = S (length l).
Proof.
  induction l as [|z l IH]; simpl; [reflexivity|].
  destruct (before x z); simpl; congruence.
Qed.

Lemma arrange_length (l : list A) : length (arrange before l) = length l.
Proof.
  induction l as [|z l IH]; simpl; [reflexivity|].
  rewrite place_length. congruence.
Qed.

Hypothesis before_total : forall a b, before a b = true \/ before b a = true.

Let R (a b : A) : Prop := before a b = true.

Lemma place_Sorted (x : A) (l : list A) :
  Sorted R l -> Sorted R (place before x l).
Proof.
  induction l as [|z l IH]; simpl; intros Hs.
  - repeat constructor.
  - destruct (before x z) eqn:E.
    + constructor; [assumption|]. constructor. exact E.
    + inversion Hs as [|? ? Hl Hz]; subst.
      constructor; [apply IH; assumption|].
      destruct l as [|z' l]; simpl.
      * constructor. destruct (before_total x z); [congruence|assumption].
      * destruct (before x z').
        -- constructor. destruct (before_total x z); [congruence|assumption].
        -- inversion Hz; subst. constructor. assumption.
Qed.

Lemma arrange_Sorted (l : list A) : Sorted R (arrange before l).
Proof.
  induction l as [|z l IH]; simpl; [constructor|].
  apply place_Sorted, IH.
Qed.
End OrderingFacts.

Lemma firstn_Sorted (A : Type) (R : A -> A -> Prop) (k : nat) (l : list A) :
  Sorted R l -> Sorted R (firstn k l).
Proof.
  revert k. induction l as [|x l IH]; intros k Hs.
  - rewrite firstn_nil. constructor.
  - destruct k as [|k]; simpl; [constructor|].
    inversion Hs as [|? ? Hl Hx]; subst.
    constructor; [apply IH; assumption|].
    destruct l as [|y l]; destruct k; simpl; try constructor.
    inversion Hx; assumption.
Qed.

Lemma firstn_incl (A : Type) (k : nat) (l : list A) (x : A) :
  In x (firstn k l) -> In x l.
Proof.
  revert k. induction l as [|y l IH]; intros [|k]; simpl; try tauto.
  intros [E|H]; [left; exact E | right; eapply IH; exact H].
Qed.

Lemma ordered_In (B : Backend) (o : option (string * bool))
    (rows : list FileRecord) (F : FileRecord) :
  In F (ordered B o rows) <-> In F rows.
Proof.
  destruct o as [[c asc]|]; simpl; [apply arrange_In | reflexivity].
Qed.

Lemma ordered_length (B : Backend) (o : option (string * bool))
    (rows : list FileRecord) :
  length (ordered B o rows) = length rows.
Proof.
  destruct o as [[c asc]|]; simpl; [apply arrange_length | reflexivity].
Qed.

(** Ordering by [created_at], descending, puts the newest first. *)
Lemma ordered_newest_first (B : Backend) (rows : list FileRecord) :
  (forall a b, col_leb B "created_at" a b = true \/
               col_leb B "created_at" b a = true) ->
  newest_first B (ordered B (Some ("created_at", false)) rows).
Proof.
  intros Htot. unfold newest_first, ordered.
  apply (arrange_Sorted (precedes B "created_at" false)).
  intros a b. unfold precedes. apply Htot.
Qed.

Lemma visible_to_Visible (uid mail : string) (F : FileRecord) :
  visible_to uid mail F = true <-> Visible uid mail F.
Proof.
  unfold visible_to, Visible, contains. rewrite orb_true_iff, String.eqb_eq.
  split; (intros [H|H]; [left; exact H | right]).
  - destruct (shared_with F) as [l|]; [|discriminate].
    exists l. split; [reflexivity|].
    apply existsb_exists in H as (x & Hx & E).
    apply String.eqb_eq in E. subst. exact Hx.
  - destruct H as (l & -> & Hin).
    apply existsb_exists. exists mail. split; [exact Hin | apply String.eqb_refl].
Qed.

(** ** The query of [fetchFiles] *)

Lemma allowed_is_column (s : string) :
  includes Index.allowedSortColumns s = true -> is_column s = true.
Proof.
  unfold includes, Index.allowedSortColumns. simpl.
  rewrite !orb_true_iff, !String.eqb_eq.
  intros [->|[->|[->|H]]]; try reflexivity. discriminate.
Qed.

Lemma finalSortBy_allowed (s : string) :
  includes Index.allowedSortColumns (Index.finalSortBy s) = true.
Proof.
  unfold Index.finalSortBy.
  destruct (includes Index.allowedSortColumns s) eqn:E; [exact E | reflexivity].
Qed.

Lemma query_order (uid mail : string) (p : FetchFilesParams) :
  order (Index.fetchFiles_query uid mail p) =
  Some (Index.finalSortBy (sortBy_or_default p), false).
Proof.
  unfold Index.fetchFiles_query, sortBy_or_default.
  destruct (limit p) as [[|n]|]; try reflexivity.
  destruct (negb (n =? 0)%Z && (0 <? n)%Z && (n <=? 100)%Z); reflexivity.
Qed.

Lemma query_limit (uid mail : string) (p : FetchFilesParams) :
  limit_to (Index.fetchFiles_query uid mail p) =
  match limit p with
  | Some (Num n) => if (1 <=? n)%Z && (n <=? 100)%Z then Some n else None
  | _ => None
  end.
Proof.
  unfold Index.fetchFiles_query.
  destruct (fileType p) as [t|]; try destruct (truthy t);
    destruct (truthy_opt (searchQuery p));
    destruct (limit p) as [[|n]|]; try reflexivity;
    replace (negb (n =? 0)%Z && (0 <? n)%Z) with (1 <=? n)%Z by lia;
    destruct ((1 <=? n)%Z && (n <=? 100)%Z); reflexivity.
Qed.

Lemma query_filters (uid mail : string) (p : FetchFilesParams) :
  filters (Index.fetchFiles_query uid mail p) =
  FOwnedOrShared uid mail ::
  match fileType p with
  | Some t => if truthy t then [FEq "type" t] else []
  | None => []
  end ++
  (if truthy_opt (searchQuery p)
   then [FIlike "filename" ("%" ++ interpolate (searchQuery p) ++ "%")%string]
   else []).
Proof.
  unfold Index.fetchFiles_query.
  destruct (limit p) as [[|n]|];
    try destruct (negb (n =? 0)%Z && (0 <? n)%Z && (n <=? 100)%Z);
    destruct (fileType p) as [t|]; try destruct (truthy t);
    destruct (truthy_opt (searchQuery p)); reflexivity.
Qed.

(** The sort column is checked, so the store never meets an unknown one. *)
Lemma query_columns_exist (uid mail : string) (p : FetchFilesParams) :
  columns_exist (Index.fetchFiles_query uid mail p) = true.
Proof.
  unfold columns_exist.
  rewrite query_order, query_filters,
    (allowed_is_column _ (finalSortBy_allowed _)), andb_true_r.
  destruct (fileType p) as [t|]; try destruct (truthy t);
    destruct (truthy_opt (searchQuery p)); reflexivity.
Qed.

(** The rows of the scoped query are the visible rows that pass the two
    optional filters. *)
Lemma query_matches (B : Backend) (uid mail : string) (p : FetchFilesParams)
    (F : FileRecord) :
  matches_all B (filters (Index.fetchFiles_query uid mail p)) F = true ->
  visible_to uid mail F = true.
Proof.
  rewrite query_filters. unfold matches_all. simpl.
  intros H. apply andb_true_iff in H as [H _]. exact H.
Qed.

Lemma query_matches_unfiltered (B : Backend) (uid mail : string)
    (p : FetchFilesParams) (F : FileRecord) :
  truthy_opt (fileType p) = false -> truthy_opt (searchQuery p) = false ->
  matches_all B (filters (Index.fetchFiles_query uid mail p)) F =
  visible_to uid mail F.
Proof.
  intros Ht Hs. rewrite query_filters, Hs.
  destruct (fileType p) as [t|]; cbn [truthy_opt] in Ht; try rewrite Ht;
    unfold matches_all; simpl; apply andb_true_r.
Qed.

(** ** [fetchFiles], case by case *)

Lemma fetchFiles_unresolved (B : Backend) (r : Screen) (p : FetchFilesParams)
    (net : Fault) (w : World) :
  resolved (user r) = None -> Index.fetchFiles B r p net w = (Normal tt, w).
Proof. unfold Index.fetchFiles. intros ->. reflexivity. Qed.

Lemma fetchFiles_served (B : Backend) (r : Screen) (p : FetchFilesParams)
    (w : World) (uid mail : string) :
  resolved (user r) = Some (uid, mail) ->
  let q := Index.fetchFiles_query uid mail p in
  Index.fetchFiles B r p Served w =
  (send (ReqSelect q) ;;
   setFiles (limited (limit_to q) (selected B q (table w)))) w.
Proof.
  unfold Index.fetchFiles. intros ->. cbv zeta.
  unfold catch_, bind, await_select, send, run_query. cbn [table].
  rewrite query_columns_exist. reflexivity.
Qed.

Lemma fetchFiles_failed (B : Backend) (r : Screen) (p : FetchFilesParams)
    (w : World) (uid mail : string) (net : Fault) (e : Error) :
  resolved (user r) = Some (uid, mail) ->
  net = Fails e \/ net = Rejects e ->
  Index.fetchFiles B r p net w =
  (send (ReqSelect (Index.fetchFiles_query uid mail p)) ;;
   toast (fetch_error_toast e)) w.
Proof.
  unfold Index.fetchFiles. intros -> [-> | ->]; reflexivity.
Qed.

Lemma unlimited_query (uid mail : string) (p : FetchFilesParams) :
  unlimited p -> limit_to (Index.fetchFiles_query uid mail p) = None.
Proof.
  intros H. rewrite query_limit.
  destruct (limit p) as [[|n]|] eqn:E; try reflexivity.
  destruct (H n E);
    replace ((1 <=? n)%Z && (n <=? 100)%Z) with false by lia; reflexivity.
Qed.




(** What [fetchFiles] leaves alone, and the one request it may send. *)
Lemma fetchFiles_frame (B : Backend) (r : Screen) (p : FetchFilesParams)
    (net : Fault) (w : World) :
  let w' := snd (Index.fetchFiles B r p net w) in
  table w' = table w /\ bucket w' = bucket w /\ console w' = console w /\
  user (screen w') = user (screen w) /\
  selectedFile (screen w') = selectedFile (screen w) /\
  shareEmail (screen w') = shareEmail (screen w) /\
  selectedFileId (screen w') = selectedFileId (screen w) /\
  isUploading (screen w') = isUploading (screen w) /\
  requests w' =
  requests w ++
  match resolved (user r) with
  | Some (uid, mail) => [ReqSelect (Index.fetchFiles_query uid mail p)]
  | None => []
  end.
Proof.
  destruct (resolved (user r)) as [[uid mail]|] eqn:E.
  - destruct net as [|e|e].
    + rewrite (fetchFiles_served B r p w E). repeat split.
    + rewrite (fetchFiles_failed B r p w (e:=e) E) by (left; reflexivity).
      repeat split.
    + rewrite (fetchFiles_failed B r p w (e:=e) E) by (right; reflexivity).
      repeat split.
  - rewrite fetchFiles_unresolved by assumption. simpl.
    rewrite app_nil_r. repeat split.
Qed.

Lemma resolved_truthy (u : option User.t) (uid mail : string) :
  resolved u = Some (uid, mail) -> truthy uid = true /\ truthy mail = true.
Proof.
  unfold resolved. destruct u as [u|]; [|discriminate].
  destruct (User.email u) as [m|]; [|discriminate].
  destruct (truthy (User.id u) && truthy m) eqn:E; [|discriminate].
  intros H. injection H as <- <-. apply andb_true_iff. exact E.
Qed.

(** The rows the scoped queries select are the visible rows of the table. *)
Lemma selected_scoped (B : Backend) (q : Query) (tbl : list FileRecord)
    (uid mail : string) (F : FileRecord) :
  (forall G, matches_all B (filters q) G = true -> visible_to uid mail G = true) ->
  In F (selected B q tbl) -> In F tbl /\ Visible uid mail F.
Proof.
  intros Hq H. unfold selected in H.
  apply ordered_In, filter_In in H as [Hin Hm].
  split; [exact Hin | apply visible_to_Visible, Hq, Hm].
Qed.

Lemma limited_incl (n : option Z) (rows : list FileRecord) (F : FileRecord) :
  In F (limited n rows) -> In F rows.
Proof. destruct n as [k|]; simpl; [apply firstn_incl | tauto]. Qed.

(** ** The server action, case by case *)

Lemma getFiles_served (B : Backend) (Json : Type)
    (parseStringify : option (list FileRecord) -> Json)
    (props : FilesAction.Props) (w : World) (uid mail : string) :
  FilesAction.userId props = Some uid -> FilesAction.email props = Some mail ->
  truthy uid = true -> truthy mail = true ->
  let rows := selected B (getFiles_query uid mail) (table w) in
  FilesAction.getFiles B parseStringify props Served w =
  (console_log (LogText "UserId: " uid) ;;
   console_log (LogText "Email: " mail) ;;
   send (ReqSelect (getFiles_query uid mail)) ;;
   console_log (LogData (Some rows)) ;;
   ret (FilesAction.Rows (parseStringify (Some rows)))) w.
Proof.
  intros Hu Hm Tu Tm. unfold FilesAction.getFiles.
  rewrite Hu, Hm. cbn [truthy_opt interpolate]. rewrite Tu, Tm. reflexivity.
Qed.

Lemma getFiles_unresolved (B : Backend) (Json : Type)
    (parseStringify : option (list FileRecord) -> Json)
    (props : FilesAction.Props) (net : Fault) (w : World) :
  truthy_opt (FilesAction.userId props) = false \/
  truthy_opt (FilesAction.email props) = false ->
  exists e,
    (message e = "User ID is required" \/ message e = "Email is required") /\
    FilesAction.getFiles B parseStringify props net w =
    (console_log (LogError e "Failed to get files") ;; throw e) w.
Proof.
  intros H. unfold FilesAction.getFiles.
  destruct (truthy_opt (FilesAction.userId props)) eqn:Hu.
  - destruct H as [H|H]; [discriminate|]. rewrite H.
    exists {| message := "Email is required" |}. split; [right|]; reflexivity.
  - exists {| message := "User ID is required" |}. split; [left|]; reflexivity.
Qed.

(** ** The file list is scoped to the user *)

(** C1, as the code has it: for a resolved user [(uid, mail)] whose id and
    address hold no character of the filter grammar, so that the text of
    the filter is the two comparisons it is written for.  Whatever happens
    to the request, [fetchFiles] of [Index.tsx] leaves in the list only rows
    that were there before or rows of the table that the user owns or that
    are shared with the user's address.  When the request is served,
    every listed row is such a row of the table; and when no type filter,
    no search term and no accepted limit is given, the list holds exactly
    the rows of the table that the user owns or that name the user's address
    in [shared_with].  The server action [getFiles], called with that id and
    address, returns exactly those rows. *)
Theorem listing_is_scoped (B : Backend) (Json : Type)
    (parseStringify : option (list FileRecord) -> Json)
    (r : Screen) (p : FetchFilesParams) (net : Fault) (w : World)
    (uid mail : string) (F : FileRecord) (props : FilesAction.Props) :
  resolved (user r) = Some (uid, mail) ->
  id_atom uid = true -> mail_atom mail = true ->
  (In F (files (screen (snd (Index.fetchFiles B r p net w)))) ->
   In F (files (screen w)) \/ (In F (table w) /\ Visible uid mail F)) /\
  (In F (files (screen (snd (Index.fetchFiles B r p Served w)))) ->
   In F (table w) /\ Visible uid mail F) /\
  (truthy_opt (fileType p) = false -> truthy_opt (searchQuery p) = false ->
   unlimited p ->
   (In F (files (screen (snd (Index.fetchFiles B r p Served w)))) <->
    In F (table w) /\ Visible uid mail F)) /\
  (FilesAction.userId props = Some uid -> FilesAction.email props = Some mail ->
   exists rows,
     fst (FilesAction.getFiles B parseStringify props Served w) =
     Normal (FilesAction.Rows (parseStringify (Some rows))) /\
     (In F rows <-> In F (table w) /\ Visible uid mail F)).
Proof.
  intros Hr _ _.
  assert (Hserved :
    In F (files (screen (snd (Index.fetchFiles B r p Served w)))) ->
    In F (table w) /\ Visible uid mail F).
  { rewrite (fetchFiles_served B r p w Hr). simpl. intros H.
    apply limited_incl in H.
    eapply selected_scoped; [|exact H]. intros G. apply query_matches. }
  split; [|split; [exact Hserved|split]].
  - destruct net as [|e|e].
    + intros H. right. apply Hserved, H.
    + rewrite (fetchFiles_failed B r p w (e:=e) Hr) by (left; reflexivity).
      simpl. intros H. left. exact H.
    + rewrite (fetchFiles_failed B r p w (e:=e) Hr) by (right; reflexivity).
      simpl. intros H. left. exact H.
  - intros Ht Hs Hl. split; [exact Hserved|].
    rewrite (fetchFiles_served B r p w Hr). simpl.
    rewrite (unlimited_query uid mail Hl). simpl. unfold selected.
    intros [Hin Hv]. apply ordered_In, filter_In. split; [exact Hin|].
    rewrite query_matches_unfiltered by assumption.
    apply visible_to_Visible, Hv.
  - intros Hu Hm. destruct (resolved_truthy _ Hr) as [Tu Tm].
    exists (selected B (getFiles_query uid mail) (table w)).
    rewrite (getFiles_served B parseStringify props w Hu Hm Tu Tm).
    split; [reflexivity|]. unfold selected, getFiles_query. simpl.
    rewrite arrange_In, filter_In. unfold matches_all. simpl.
    rewrite andb_true_r, visible_to_Visible. reflexivity.
Qed.

Lemma listing_is_scoped_witness :
  (In photo_png
      (files (screen (snd (Index.fetchFiles sample_backend
                             (screen sample_world) no_params Served
                             sample_world)))) <->
   In photo_png (table sample_world) /\
   Visible "u-alice" "alice@example.org" photo_png) /\
  (In private_pdf
      (files (screen (snd (Index.fetchFiles sample_backend
                             (screen sample_world) no_params Served
                             sample_world)))) ->
   In private_pdf (table sample_world) /\
   Visible "u-alice" "alice@example.org" private_pdf).
Proof.
  split.
  - destruct (listing_is_scoped sample_backend (fun rows => rows)
                (screen sample_world) no_params Served sample_world photo_png
                {| FilesAction.email := None; FilesAction.userId := None |}
                (uid := "u-alice") (mail := "alice@example.org")
                eq_refl eq_refl eq_refl)
      as (_ & _ & H & _).
    apply H; [reflexivity | reflexivity | intros n E; discriminate E].
  - destruct (listing_is_scoped sample_backend (fun rows => rows)
                (screen sample_world) no_params Served sample_world private_pdf
                {| FilesAction.email := None; FilesAction.userId := None |}
                (uid := "u-alice") (mail := "alice@example.org")
                eq_refl eq_refl eq_refl)
      as (_ & H & _).
    exact H.
Defined.

(** C1 as stated fails twice.  In [Index.tsx] a type filter keeps a file the
    user owns out of the list; in the earlier revision of the screen the
    query has no ownership filter, and a file of another user that is shared
    with nobody is listed. *)
Lemma listing_counterexample :
  (In notes_txt (table sample_world) /\
   user_id notes_txt = User.id alice /\
   ~ In notes_txt
       (files (screen (snd (Index.fetchFiles sample_backend
                              (screen sample_world)
                              {| fileType := Some "image/png";
                                 searchQuery := None;
                                 sortBy := Some "created_at";
                                 limit := None |}
                              Served sample_world))))) /\
  (In private_pdf
      (files (screen (snd (IndexLegacy.fetchFiles sample_backend Served
                             sample_world)))) /\
   user_id private_pdf <> User.id alice /\
   ~ contains (shared_with private_pdf) "alice@example.org" = true).
Proof.
  split; split.
  - left. reflexivity.
  - split; [reflexivity|]. vm_compute. intros [H|[]]. discriminate H.
  - vm_compute. left. reflexivity.
  - split; [discriminate|]. vm_compute. discriminate.
Qed.

(** ** No query without a resolved user *)

(** C2, as the code has it: when the user's id or address is not resolved,
    [fetchFiles] of [Index.tsx] returns at once, sends nothing and changes
    nothing; [getFiles] sends no request either and changes neither the
    table nor the bucket, but it does not return silently: it logs and
    throws "User ID is required" or "Email is required". *)
Theorem unresolved_user_no_query (B : Backend) (Json : Type)
    (parseStringify : option (list FileRecord) -> Json)
    (r : Screen) (p : FetchFilesParams) (net : Fault) (w : World)
    (props : FilesAction.Props) :
  (resolved (user r) = None ->
   Index.fetchFiles B r p net w = (Normal tt, w)) /\
  (truthy_opt (FilesAction.userId props) = false \/
   truthy_opt (FilesAction.email props) = false ->
   exists e w',
     FilesAction.getFiles B parseStringify props net w = (Throw e, w') /\
     (message e = "User ID is required" \/ message e = "Email is required") /\
     requests w' = requests w /\ table w' = table w /\ bucket w' = bucket w /\
     screen w' = screen w /\ toasts w' = toasts w /\
     console w' = console w ++ [LogError e "Failed to get files"]).
Proof.
  split.
  - apply fetchFiles_unresolved.
  - intros H.
    destruct (getFiles_unresolved B parseStringify props net w H)
      as (e & Hm & E).
    exists e. eexists. split; [exact E|]. split; [exact Hm|].
    repeat split.
Qed.

Lemma unresolved_user_no_query_witness :
  Index.fetchFiles sample_backend (screen_of None) no_params Served
    (world_of (screen_of None) [notes_txt]) =
  (Normal tt, world_of (screen_of None) [notes_txt]).
Proof.
  apply (unresolved_user_no_query sample_backend (fun rows => rows)
           (screen_of None) no_params Served
           (world_of (screen_of None) [notes_txt])
           {| FilesAction.email := None; FilesAction.userId := None |}).
  reflexivity.
Defined.

(** C2 as stated fails in the earlier revision of the screen: with no user
    at all, its [fetchFiles] sends a select without any ownership filter
    and replaces the list by every row of the table. *)
Lemma unresolved_user_counterexample :
  let w := world_of (screen_of None) [notes_txt; photo_png; private_pdf] in
  let w' := snd (IndexLegacy.fetchFiles sample_backend Served w) in
  resolved (user (screen w)) = None /\
  requests w = [] /\
  requests w' =
    [ReqSelect {| filters := []; order := Some ("created_at", false);
                  limit_to := None |}] /\
  files (screen w) = [] /\
  files (screen w') = [private_pdf; photo_png; notes_txt].
Proof. vm_compute. repeat split. Qed.

(** ** The sort column *)



(** ** The limit *)

(** C4: [fetchFiles] passes the limit [n] on to the query exactly when
    [1 <= n <= 100]; the list then holds the first [n] selected rows, so at
    most [n].  For [n <= 0], for [101 <= n], for [NaN] and without a limit
    the query carries no limit and the list holds every selected row. *)
Theorem limit_clamping (B : Backend) (r : Screen) (p : FetchFilesParams)
    (w : World) (uid mail : string) (n : Z) (l : option number) :
  resolved (user r) = Some (uid, mail) ->
  ((1 <= n <= 100)%Z ->
   let p' := params_limit (Some (Num n)) p in
   let q := Index.fetchFiles_query uid mail p' in
   let shown := files (screen (snd (Index.fetchFiles B r p' Served w))) in
   limit_to q = Some n /\
   shown = firstn (Z.to_nat n) (selected B q (table w)) /\
   length shown <= Z.to_nat n) /\
  (l = None \/ l = Some NaN \/ l = Some (Num n) /\ (n <= 0 \/ 101 <= n)%Z ->
   let p' := params_limit l p in
   let q := Index.fetchFiles_query uid mail p' in
   let shown := files (screen (snd (Index.fetchFiles B r p' Served w))) in
   limit_to q = None /\
   shown = selected B q (table w) /\
   length shown = length (filter (matches_all B (filters q)) (table w))).
Proof.
  intros Hr. split.
  - intros Hn p' q shown. subst shown.
    rewrite (fetchFiles_served B r p' w Hr). fold q. simpl.
    assert (Hq : limit_to q = Some n).
    { subst q p'. rewrite query_limit. cbn [limit params_limit].
      replace ((1 <=? n)%Z && (n <=? 100)%Z) with true by lia. reflexivity. }
    rewrite Hq. simpl. repeat split. apply firstn_le_length.
  - intros Hl p' q shown. subst shown.
    rewrite (fetchFiles_served B r p' w Hr). fold q. simpl.
    assert (Hq : limit_to q = None).
    { subst q p'. rewrite query_limit. cbn [limit params_limit].
      destruct Hl as [->|[->|[-> Hn]]]; try reflexivity.
      replace ((1 <=? n)%Z && (n <=? 100)%Z) with false by lia. reflexivity. }
    rewrite Hq. simpl. repeat split. unfold selected. apply ordered_length.
Qed.

Lemma limit_clamping_witness :
  (limit_to (Index.fetchFiles_query "u-alice" "alice@example.org"
               (params_limit (Some (Num 50)) no_params)) = Some 50%Z /\
   length (files (screen (snd (Index.fetchFiles sample_backend
                                 (screen sample_world)
                                 (params_limit (Some (Num 50)) no_params)
                                 Served sample_world)))) <= 50) /\
  limit_to (Index.fetchFiles_query "u-alice" "alice@example.org"
              (params_limit (Some (Num 0)) no_params)) = None /\
  limit_to (Index.fetchFiles_query "u-alice" "alice@example.org"
              (params_limit (Some (Num 101)) no_params)) = None /\
  limit_to (Index.fetchFiles_query "u-alice" "alice@example.org"
              (params_limit (Some (Num (-3))) no_params)) = None.
Proof.
  pose proof (fun n l =>
    limit_clamping sample_backend (screen sample_world) no_params
      sample_world n l (uid := "u-alice") (mail := "alice@example.org")
      eq_refl) as H.
  split; [|split; [|split]].
  - destruct (H 50%Z None) as [H50 _].
    destruct (H50 ltac:(lia)) as (Hq & _ & Hlen). split; assumption.
  - destruct (H 0%Z (Some (Num 0))) as [_ H0].
    apply H0. right. right. split; [reflexivity | lia].
  - destruct (H 101%Z (Some (Num 101))) as [_ H101].
    apply H101. right. right. split; [reflexivity | lia].
  - destruct (H (-3)%Z (Some (Num (-3)))) as [_ Hneg].
    apply Hneg. right. right. split; [reflexivity | lia].
Defined.

(** ** Retrieval errors *)

(** C8: when the request of [fetchFiles] comes back with an error, or is
    rejected, [Index.tsx] shows one notification "Error fetching files" with
    the message of the error and leaves the list, and the rest of the screen,
    as it was.  The earlier revision does the same for an error that the
    request comes back with. *)
Theorem retrieval_error_keeps_list (B : Backend) (r : Screen)
    (p : FetchFilesParams) (net : Fault) (w : World) (e : Error)
    (uid mail : string) :
  (resolved (user r) = Some (uid, mail) ->
   net = Fails e \/ net = Rejects e ->
   let w' := snd (Index.fetchFiles B r p net w) in
   toasts w' = toasts w ++ [fetch_error_toast e] /\
   files (screen w') = files (screen w) /\
   screen w' = screen w) /\
  (let w' := snd (IndexLegacy.fetchFiles B (Fails e) w) in
   toasts w' = toasts w ++ [fetch_error_toast e] /\
   files (screen w') = files (screen w) /\
   screen w' = screen w).
Proof.
  split.
  - intros Hr Hn. rewrite (fetchFiles_failed B r p w Hr Hn).
    repeat split.
  - repeat split.
Qed.

Lemma retrieval_error_keeps_list_witness :
  let w := world_of
             {| files := [notes_txt]; user := Some alice; selectedFile := None;
                shareEmail := ""; selectedFileId := None;
                isUploading := false |} [notes_txt; photo_png] in
  let w' := snd (Index.fetchFiles sample_backend (screen w) no_params
                   (Rejects {| message := "Failed to fetch" |}) w) in
  toasts w' = [fetch_error_toast {| message := "Failed to fetch" |}] /\
  files (screen w') = [notes_txt] /\
  screen w' = screen w.
Proof.
  intros w w'.
  destruct (retrieval_error_keeps_list sample_backend (screen w) no_params
              (Rejects {| message := "Failed to fetch" |}) w
              {| message := "Failed to fetch" |}
              "u-alice" "alice@example.org") as [H _].
  apply H; [reflexivity | right; reflexivity].
Defined.

(** ** [handleUpload], case by case *)

Lemma handleUpload_run (B : Backend) (r : Screen) (uuid : string)
    (net_upload net_insert : Fault) (g : Generated) (net_refresh : Fault)
    (w : World) (file : File.t) (u : User.t) :
  selectedFile r = Some file -> user r = Some u ->
  let key := storage_key uuid file in
  let payload := upload_payload B uuid file u in
  Index.handleUpload B r uuid net_upload net_insert g net_refresh w =
  match upload_failure net_upload key (bucket w) with
  | Some e =>
      (setIsUploading true ;;
       send (ReqStorageUpload key file) ;;
       toast (upload_error_toast e) ;;
       setIsUploading false) w
  | None =>
      match fault_error net_insert with
      | Some e =>
          (setIsUploading true ;;
           send (ReqStorageUpload key file) ;;
           set_bucket (bucket w ++ [(key, file)]) ;;
           send (ReqInsert payload) ;;
           toast (upload_error_toast e) ;;
           setIsUploading false) w
      | None =>
          (setIsUploading true ;;
           send (ReqStorageUpload key file) ;;
           set_bucket (bucket w ++ [(key, file)]) ;;
           send (ReqInsert payload) ;;
           set_table (table w ++ [row_of payload g]) ;;
           toast upload_success_toast ;;
           setSelectedFile None ;;
           unawaited (Index.fetchFiles B r no_params net_refresh) ;;
           setIsUploading false) w
      end
  end.
Proof.
  intros Hf Hu key payload. unfold Index.handleUpload. rewrite Hf, Hu.
  fold (storage_key uuid file). fold key.
  destruct net_upload as [|e|e]; cbn [upload_failure]; try reflexivity.
  destruct (stored key (bucket w)) eqn:Es.
  - unfold await_upload, finally_, catch_, setIsUploading, on_screen, send,
      bind.
    cbn [bucket]. rewrite Es. reflexivity.
  - destruct net_insert as [|e|e]; cbn [fault_error];
      unfold await_upload, finally_, catch_, setIsUploading, on_screen, send,
        bind;
      cbn [bucket]; rewrite Es; reflexivity.
Qed.

Lemma legacy_handleUpload_run (B : Backend) (r : Screen) (uuid : string)
    (net_upload net_insert : Fault) (g : Generated) (net_refresh : Fault)
    (w : World) (file : File.t) (u : User.t) :
  selectedFile r = Some file -> user r = Some u ->
  let key := storage_key uuid file in
  let payload := upload_payload B uuid file u in
  IndexLegacy.handleUpload B r uuid net_upload net_insert g net_refresh w =
  match upload_failure net_upload key (bucket w) with
  | Some e =>
      (setIsUploading true ;;
       send (ReqStorageUpload key file) ;;
       toast (upload_error_toast e) ;;
       setIsUploading false) w
  | None =>
      match fault_error net_insert with
      | Some e =>
          (setIsUploading true ;;
           send (ReqStorageUpload key file) ;;
           set_bucket (bucket w ++ [(key, file)]) ;;
           send (ReqInsert payload) ;;
           toast (upload_error_toast e) ;;
           setIsUploading false) w
      | None =>
          (setIsUploading true ;;
           send (ReqStorageUpload key file) ;;
           set_bucket (bucket w ++ [(key, file)]) ;;
           send (ReqInsert payload) ;;
           set_table (table w ++ [row_of payload g]) ;;
           toast upload_success_toast ;;
           setSelectedFile None ;;
           unawaited (IndexLegacy.fetchFiles B net_refresh) ;;
           setIsUploading false) w
      end
  end.
Proof.
  intros Hf Hu key payload. unfold IndexLegacy.handleUpload. rewrite Hf, Hu.
  fold (storage_key uuid file). fold key.
  destruct net_upload as [|e|e]; cbn [upload_failure]; try reflexivity.
  destruct (stored key (bucket w)) eqn:Es.
  - unfold await_upload, finally_, catch_, setIsUploading, on_screen, send,
      bind.
    cbn [bucket]. rewrite Es. reflexivity.
  - destruct net_insert as [|e|e]; cbn [fault_error];
      unfold await_upload, finally_, catch_, setIsUploading, on_screen, send,
        bind;
      cbn [bucket]; rewrite Es; reflexivity.
Qed.

Lemma legacy_fetchFiles_frame (B : Backend) (net : Fault) (w : World) :
  let w' := snd (IndexLegacy.fetchFiles B net w) in
  table w' = table w /\ bucket w' = bucket w /\
  selectedFile (screen w') = selectedFile (screen w) /\
  isUploading (screen w') = isUploading (screen w).
Proof. destruct net; repeat split. Qed.

(** What a successful upload leaves in the bucket and in the table, for a
    refresh that keeps both. *)
Lemma upload_success_state (refresh : Action unit) (w : World)
    (key : string) (file : File.t) (payload : InsertPayload) (g : Generated) :
  (forall v, table (snd (refresh v)) = table v /\
             bucket (snd (refresh v)) = bucket v) ->
  let w' :=
    snd ((setIsUploading true ;;
          send (ReqStorageUpload key file) ;;
          set_bucket (bucket w ++ [(key, file)]) ;;
          send (ReqInsert payload) ;;
          set_table (table w ++ [row_of payload g]) ;;
          toast upload_success_toast ;;
          setSelectedFile None ;;
          unawaited refresh ;;
          setIsUploading false) w) in
  bucket w' = bucket w ++ [(key, file)] /\
  table w' = table w ++ [row_of payload g] /\
  isUploading (screen w') = false.
Proof.
  intros Hfr. cbn.
  match goal with
  | |- context [refresh ?v] => destruct (Hfr v) as [Ht Hb]
  end.
  rewrite Ht, Hb. repeat split.
Qed.

(** ** Upload: the storage key and the metadata row *)

(** C5, as the code has it: in both revisions of the screen, an upload
    whose two requests succeed stores the file under the key made of the
    token, a dot and the last piece of the name split at the dots, and
    appends to the table one row that keeps the original file name and
    carries that piece as extension.  For a name [pre.suf] with no dot in
    [suf] the piece is [suf], the extension, and nothing else of the name
    is in the key; for a name without a dot the piece is the whole name,
    which then is part of the key. *)
Theorem upload_key_and_row (B : Backend) (r : Screen) (uuid : string)
    (g : Generated) (net_refresh : Fault) (w : World) (file : File.t)
    (u : User.t) :
  selectedFile r = Some file -> user r = Some u ->
  stored (storage_key uuid file) (bucket w) = false ->
  exists ext,
    pop (split "." (File.name file)) = Some ext /\
    (forall pre suf,
       File.name file = (pre ++ "." ++ suf)%string -> has_dot suf = false ->
       ext = suf) /\
    (has_dot (File.name file) = false -> ext = File.name file) /\
    forall w',
      w' = snd (Index.handleUpload B r uuid Served Served g net_refresh w) \/
      w' = snd (IndexLegacy.handleUpload B r uuid Served Served g
                  net_refresh w) ->
      bucket w' = bucket w ++ [((uuid ++ "." ++ ext)%string, file)] /\
      exists row,
        table w' = table w ++ [row] /\
        filename row = File.name file /\
        extension row = ext /\
        public_url row = getPublicUrl B (uuid ++ "." ++ ext)%string /\
        user_id row = User.id u /\
        type row = File.type file.
Proof.
  intros Hf Hu Hfree.
  destruct (pop_split_defined "." (File.name file)) as [ext He].
  exists ext. split; [exact He|]. split; [|split].
  - intros pre suf Hn Hs. rewrite Hn, pop_split_suffix in He by assumption.
    congruence.
  - intros Hd. rewrite pop_split_whole in He by assumption. congruence.
  - assert (Hk : storage_key uuid file = (uuid ++ "." ++ ext)%string).
    { unfold storage_key. rewrite He. reflexivity. }
    assert (Hx : ins_extension (upload_payload B uuid file u) = ext).
    { unfold upload_payload. cbn [ins_extension]. rewrite He.
      apply or_else_empty. }
    intros w' [-> | ->].
    + rewrite (handleUpload_run B r uuid Served Served g net_refresh w Hf Hu).
      cbn [upload_failure fault_error]. rewrite Hfree.
      destruct (upload_success_state
                  (Index.fetchFiles B r no_params net_refresh) w
                  (storage_key uuid file) file (upload_payload B uuid file u) g)
        as (Hb & Ht & _).
      { intros v.
        destruct (fetchFiles_frame B r no_params net_refresh v)
          as (H1 & H2 & _). split; assumption. }
      rewrite Hb, Ht, Hk. split; [reflexivity|].
      eexists. split; [reflexivity|]. cbn [row_of filename extension
        public_url user_id type]. rewrite Hx.
      unfold upload_payload. cbn. rewrite Hk. repeat split.
    + rewrite (legacy_handleUpload_run B r uuid Served Served g net_refresh w
                 Hf Hu).
      cbn [upload_failure fault_error]. rewrite Hfree.
      destruct (upload_success_state
                  (IndexLegacy.fetchFiles B net_refresh) w
                  (storage_key uuid file) file (upload_payload B uuid file u) g)
        as (Hb & Ht & _).
      { intros v.
        destruct (legacy_fetchFiles_frame B net_refresh v)
          as (H1 & H2 & _). split; assumption. }
      rewrite Hb, Ht, Hk. split; [reflexivity|].
      eexists. split; [reflexivity|]. cbn [row_of filename extension
        public_url user_id type]. rewrite Hx.
      unfold upload_payload. cbn. rewrite Hk. repeat split.
Qed.

Lemma upload_key_and_row_witness :
  let w' := snd (Index.handleUpload sample_backend upload_screen sample_uuid
                   Served Served sample_generated Served upload_world) in
  bucket w' = [((sample_uuid ++ ".txt")%string, a_txt)] /\
  exists row,
    table w' = table upload_world ++ [row] /\
    filename row = "a.txt" /\
    extension row = "txt".
Proof.
  intros w'.
  destruct (upload_key_and_row sample_backend upload_screen sample_uuid
              sample_generated Served upload_world (file := a_txt)
              (u := alice) eq_refl eq_refl eq_refl)
    as (ext & _ & Hsuf & _ & H).
  rewrite (Hsuf "a" "txt" eq_refl eq_refl) in H.
  destruct (H w' (or_introl eq_refl)) as (Hb & row & Ht & Hn & Hx & _).
  split; [exact Hb|]. exists row. repeat split; assumption.
Defined.

(** C5 as stated fails for a name without a dot: the file [README] is
    stored under the token, a dot and [README], so the original file name
    is part of the key. *)
Lemma upload_key_counterexample :
  let w' := snd (Index.handleUpload sample_backend readme_screen sample_uuid
                   Served Served sample_generated Served
                   (world_of readme_screen [])) in
  File.name readme = "README" /\
  bucket w' = [((sample_uuid ++ "." ++ File.name readme)%string, readme)] /\
  exists row, table w' = [row] /\ extension row = File.name readme.
Proof.
  vm_compute. split; [reflexivity|]. split; [reflexivity|].
  eexists. split; reflexivity.
Qed.

Lemma fetchFiles_toasts (B : Backend) (r : Screen) (p : FetchFilesParams)
    (net : Fault) (w : World) :
  exists ts, toasts (snd (Index.fetchFiles B r p net w)) = toasts w ++ ts.
Proof.
  destruct (resolved (user r)) as [[uid mail]|] eqn:E.
  - destruct net as [|e|e].
    + rewrite (fetchFiles_served B r p w E). exists []. simpl.
      symmetry. apply app_nil_r.
    + rewrite (fetchFiles_failed B r p w (e:=e) E) by (left; reflexivity).
      eexists. reflexivity.
    + rewrite (fetchFiles_failed B r p w (e:=e) E) by (right; reflexivity).
      eexists. reflexivity.
  - rewrite fetchFiles_unresolved by assumption. exists []. simpl.
    symmetry. apply app_nil_r.
Qed.

(** ** Upload: failures, the busy flag and the refresh *)






Lemma handleUpload_success (B : Backend) (r : Screen) (uuid : string)
    (g : Generated) (net_refresh : Fault) (w : World) (file : File.t)
    (u : User.t) :
  selectedFile r = Some file -> user r = Some u ->
  stored (storage_key uuid file) (bucket w) = false ->
  let w' := snd (Index.handleUpload B r uuid Served Served g net_refresh w) in
  bucket w' = bucket w ++ [(storage_key uuid file, file)] /\
  table w' = table w ++ [row_of (upload_payload B uuid file u) g].
Proof.
  intros Hf Hu Hfree.
  rewrite (handleUpload_run B r uuid Served Served g net_refresh w Hf Hu).
  cbn [upload_failure fault_error]. rewrite Hfree.
  destruct (upload_success_state
              (Index.fetchFiles B r no_params net_refresh) w
              (storage_key uuid file) file (upload_payload B uuid file u) g)
    as (Hb & Ht & _).
  { intros v.
    destruct (fetchFiles_frame B r no_params net_refresh v) as (H1 & H2 & _).
    split; assumption. }
  split; assumption.
Qed.

(** ** Upload: names without a dot *)

(** C10: for a picked file with a name (a file of the file system has
    one).  When the name has no dot, a successful upload gives the row the
    whole name as extension, which is not empty, and stores the file under
    the token, a dot and the whole name.  Whatever the name, the extension
    of the row is empty only when the name ends with a dot. *)
Theorem dotless_name_extension (B : Backend) (r : Screen) (uuid : string)
    (g : Generated) (net_refresh : Fault) (w : World) (file : File.t)
    (u : User.t) :
  selectedFile r = Some file -> user r = Some u ->
  File.name file <> "" ->
  stored (storage_key uuid file) (bucket w) = false ->
  let w' := snd (Index.handleUpload B r uuid Served Served g net_refresh w) in
  exists row key,
    table w' = table w ++ [row] /\
    bucket w' = bucket w ++ [(key, file)] /\
    (has_dot (File.name file) = false ->
     extension row = File.name file /\ extension row <> "" /\
     key = (uuid ++ "." ++ File.name file)%string) /\
    (extension row = "" -> exists pre, File.name file = (pre ++ ".")%string).
Proof.
  intros Hf Hu Hname Hfree w'.
  destruct (handleUpload_success B r uuid g net_refresh w Hf Hu Hfree)
    as [Hb Ht].
  exists (row_of (upload_payload B uuid file u) g), (storage_key uuid file).
  split; [exact Ht|]. split; [exact Hb|].
  destruct (pop_split_defined "." (File.name file)) as [ext He].
  unfold storage_key, upload_payload. cbn [row_of extension ins_extension].
  rewrite He, or_else_empty. cbn [interpolate]. split.
  - intros Hd. rewrite pop_split_whole in He by assumption.
    injection He as <-. repeat split. exact Hname.
  - intros ->. destruct (pop_split_empty _ He) as [E|E]; [contradiction|exact E].
Qed.

Lemma dotless_name_extension_witness :
  let w' := snd (Index.handleUpload sample_backend readme_screen sample_uuid
                   Served Served sample_generated Served
                   (world_of readme_screen [])) in
  exists row,
    table w' = [row] /\ extension row = "README" /\
    bucket w' = [((sample_uuid ++ ".README")%string, readme)].
Proof.
  intros w'.
  destruct (dotless_name_extension sample_backend readme_screen sample_uuid
              sample_generated Served (world_of readme_screen [])
              (file := readme) (u := alice) eq_refl eq_refl)
    as (row & key & Ht & Hb & Hd & _).
  - discriminate.
  - reflexivity.
  - destruct (Hd eq_refl) as (Hx & _ & Hk). subst key.
    exists row. repeat split; assumption.
Defined.

(** ** [handleShare], case by case *)

Lemma handleShare_run (B : Backend) (r : Screen)
    (net_read net_write net_refresh : Fault) (w : World) (fid : string) :
  selectedFileId r = Some fid -> truthy fid = true ->
  truthy (shareEmail r) = true ->
  Index.handleShare B r net_read net_write net_refresh w =
  match read_shared_with net_read fid (table w) with
  | inl e =>
      (send (ReqSelectSharedWith fid) ;; toast (share_error_toast e)) w
  | inr current =>
      let updatedSharedWith := or_empty current ++ [shareEmail r] in
      match fault_error net_write with
      | Some e =>
          (send (ReqSelectSharedWith fid) ;;
           send (ReqUpdateSharedWith fid updatedSharedWith) ;;
           toast (share_error_toast e)) w
      | None =>
          (send (ReqSelectSharedWith fid) ;;
           send (ReqUpdateSharedWith fid updatedSharedWith) ;;
           set_table (shared_with_set fid updatedSharedWith (table w)) ;;
           toast (share_success_toast (shareEmail r)) ;;
           setShareEmail "" ;;
           setSelectedFileId None ;;
           unawaited (Index.fetchFiles B r no_params net_refresh)) w
      end
  end.
Proof.
  intros Hid Tid Tmail. unfold Index.handleShare.
  rewrite Hid, Tid, Tmail. cbn [andb].
  destruct net_read as [|e|e]; cbn [read_shared_with]; try reflexivity.
  unfold await_select_shared_with, catch_, send, bind. cbn [table].
  destruct (filter (has_id fid) (table w)) as [|row [|row' rows]];
    try reflexivity.
  cbn [error data answered]. destruct (shared_with row) as [l|];
    destruct net_write as [|e|e]; reflexivity.
Qed.

Lemma filter_shared_with_set (fid : string) (l : list string)
    (tbl : list FileRecord) :
  filter (has_id fid) (shared_with_set fid l tbl) =
  map (set_shared_with l) (filter (has_id fid) tbl).
Proof.
  unfold shared_with_set. induction tbl as [|x tbl IH]; [reflexivity|].
  simpl. destruct (has_id fid x) eqn:E.
  - change (has_id fid (set_shared_with l x)) with (has_id fid x).
    rewrite E. simpl. rewrite IH. reflexivity.
  - rewrite E. exact IH.
Qed.

Lemma set_shared_with_twice (l1 l2 : list string) (x : FileRecord) :
  set_shared_with l2 (set_shared_with l1 x) = set_shared_with l2 x.
Proof. reflexivity. Qed.

(** A share whose read and write are served: the table after it. *)
Lemma handleShare_success (B : Backend) (r : Screen) (net_refresh : Fault)
    (w : World) (fid : string) (row : FileRecord) :
  selectedFileId r = Some fid -> truthy fid = true ->
  truthy (shareEmail r) = true ->
  filter (has_id fid) (table w) = [row] ->
  let w' := snd (Index.handleShare B r Served Served net_refresh w) in
  table w' =
  shared_with_set fid (or_empty (shared_with row) ++ [shareEmail r]) (table w).
Proof.
  intros Hid Tid Tmail Hrow.
  rewrite (handleShare_run B r Served Served net_refresh w Hid Tid Tmail).
  cbn [read_shared_with fault_error]. rewrite Hrow. cbv zeta.
  cbn -[Index.fetchFiles].
  match goal with
  | |- context [Index.fetchFiles B r no_params net_refresh ?v] =>
      destruct (fetchFiles_frame B r no_params net_refresh v) as (Ht & _)
  end.
  rewrite Ht. reflexivity.
Qed.

Lemma share_served_table (B : Backend) (fid mail : string) (w : World)
    (row : FileRecord) :
  truthy fid = true -> truthy mail = true ->
  filter (has_id fid) (table w) = [row] ->
  table (snd (share_served B fid mail w)) =
  shared_with_set fid (or_empty (shared_with row) ++ [mail]) (table w).
Proof.
  intros Tid Tmail Hrow.
  unfold share_served, begin_share, click, bind, setSelectedFileId,
    setShareEmail, on_screen. cbn [screen].
  match goal with
  | |- context [Index.handleShare B ?s Served Served Served ?v] =>
      apply (handleShare_success B s Served v (fid := fid) (row := row)
               eq_refl Tid Tmail Hrow)
  end.
Qed.

Lemma shared_with_set_others (fid : string) (l : list string)
    (tbl : list FileRecord) (x : FileRecord) :
  In x tbl -> id x <> fid -> In x (shared_with_set fid l tbl).
Proof.
  intros Hin Hid. unfold shared_with_set. apply in_map_iff. exists x.
  split; [|exact Hin]. unfold has_id.
  destruct (String.eqb_spec (id x) fid); [contradiction | reflexivity].
Qed.

(** ** Share: a true append *)

(** C7: for a share of the file with id [fid], the one row with that id,
    to the address typed, with read and write served.  The table afterwards
    is the table before with [shared_with] of that row set to its previous
    list (empty when null) followed by the address; the entries that were
    there stay, in place, and rows with another id are the same.  Sharing
    with the same address once more puts the address a second time at the
    end: nothing is deduplicated. *)
Theorem share_appends (B : Backend) (r : Screen) (net_refresh : Fault)
    (w : World) (fid : string) (row : FileRecord) :
  selectedFileId r = Some fid -> truthy fid = true ->
  truthy (shareEmail r) = true ->
  filter (has_id fid) (table w) = [row] ->
  let mail := shareEmail r in
  let old := or_empty (shared_with row) in
  let w' := snd (Index.handleShare B r Served Served net_refresh w) in
  let w'' := snd (share_served B fid mail w') in
  table w' = shared_with_set fid (old ++ [mail]) (table w) /\
  filter (has_id fid) (table w') = [set_shared_with (old ++ [mail]) row] /\
  (forall x, In x (table w) -> id x <> fid -> In x (table w')) /\
  filter (has_id fid) (table w'') =
    [set_shared_with (old ++ [mail; mail]) row] /\
  count_occ string_dec (old ++ [mail; mail]) mail =
    count_occ string_dec old mail + 2.
Proof.
  intros Hid Tid Tmail Hrow mail old w' w''.
  assert (Ht : table w' = shared_with_set fid (old ++ [mail]) (table w)).
  { apply (handleShare_success B r net_refresh w Hid Tid Tmail Hrow). }
  assert (Hf : filter (has_id fid) (table w') =
               [set_shared_with (old ++ [mail]) row]).
  { rewrite Ht, filter_shared_with_set, Hrow. reflexivity. }
  split; [exact Ht|]. split; [exact Hf|]. split; [|split].
  - intros x Hin Hx. rewrite Ht. apply shared_with_set_others; assumption.
  - subst w''. rewrite (@share_served_table B fid mail w' _ Tid Tmail Hf).
    rewrite filter_shared_with_set, Hf. cbn [map shared_with set_shared_with
      or_empty]. rewrite <- app_assoc. reflexivity.
  - rewrite count_occ_app. simpl.
    destruct (string_dec mail mail) as [_|N]; [lia | contradiction].
Qed.

Lemma share_appends_witness :
  let w' := snd (Index.handleShare sample_backend share_screen Served Served
                   Served share_world) in
  let w'' := snd (share_served sample_backend "f1" "carol@example.org" w') in
  map shared_with (filter (has_id "f1") (table w')) =
    [Some ["carol@example.org"]] /\
  map shared_with (filter (has_id "f1") (table w'')) =
    [Some ["carol@example.org"; "carol@example.org"]].
Proof.
  intros w' w''.
  destruct (share_appends sample_backend share_screen Served share_world
              (fid := "f1") (row := notes_txt)
              eq_refl eq_refl eq_refl eq_refl)
    as (_ & H1 & _ & H2 & _).
  split.
  - exact (f_equal (map shared_with) H1).
  - exact (f_equal (map shared_with) H2).
Defined.

(** ** Share: what is cleared, and when *)

(** C9: for a share started from the current render, with a file picked
    and an address typed.  When the read or the write comes back with an
    error or is rejected, the screen is as before, so the picked file and
    the address are kept, the table is as before, and the error is shown.
    When both are served, the picked file and the address are cleared.  So
    both are cleared exactly when the share succeeded. *)
Theorem share_clears_on_success_only (B : Backend)
    (net_read net_write net_refresh : Fault) (w : World) (fid : string)
    (e : Error) (current : option (list string)) :
  selectedFileId (screen w) = Some fid -> truthy fid = true ->
  truthy (shareEmail (screen w)) = true ->
  let w' := snd (Index.handleShare B (screen w) net_read net_write
                   net_refresh w) in
  (read_shared_with net_read fid (table w) = inl e ->
   screen w' = screen w /\ table w' = table w /\
   toasts w' = toasts w ++ [share_error_toast e]) /\
  (read_shared_with net_read fid (table w) = inr current ->
   fault_error net_write = Some e ->
   screen w' = screen w /\ table w' = table w /\
   toasts w' = toasts w ++ [share_error_toast e]) /\
  (read_shared_with net_read fid (table w) = inr current ->
   fault_error net_write = None ->
   selectedFileId (screen w') = None /\ shareEmail (screen w') = "" /\
   exists ts,
     toasts w' =
     toasts w ++ share_success_toast (shareEmail (screen w)) :: ts) /\
  (selectedFileId (screen w') = None /\ shareEmail (screen w') = "" <->
   (exists c, read_shared_with net_read fid (table w) = inr c) /\
   fault_error net_write = None).
Proof.
  intros Hid Tid Tmail w'. subst w'.
  rewrite (handleShare_run B (screen w) net_read net_write net_refresh w
             Hid Tid Tmail).
  assert (Hkeep : forall w1, screen w1 = screen w ->
            (selectedFileId (screen w1) = None /\ shareEmail (screen w1) = ""
             <-> False)).
  { intros w1 ->. rewrite Hid. split; [intros [H _]; discriminate | tauto]. }
  destruct (read_shared_with net_read fid (table w)) as [e1|c].
  { split; [intros E; injection E as ->; destruct w as [[] ? ? ? ? ?];
            repeat split|].
    split; [discriminate|]. split; [discriminate|].
    rewrite Hkeep by (destruct w as [[] ? ? ? ? ?]; reflexivity).
    split; [tauto|]. intros [[c Hc] _]. discriminate. }
  cbv zeta. destruct (fault_error net_write) as [e2|].
  { split; [discriminate|].
    split; [intros _ E; injection E as ->; destruct w as [[] ? ? ? ? ?];
            repeat split|].
    split; [discriminate|].
    rewrite Hkeep by (destruct w as [[] ? ? ? ? ?]; reflexivity).
    split; [tauto|]. intros [_ H]. discriminate. }
  split; [discriminate|]. split; [discriminate|].
  cbn -[Index.fetchFiles].
  match goal with
  | |- context [Index.fetchFiles B (screen w) no_params net_refresh ?v] =>
      pose proof (fetchFiles_frame B (screen w) no_params net_refresh v)
        as Hfr;
      destruct (fetchFiles_toasts B (screen w) no_params net_refresh v)
        as [ts Hts]
  end.
  cbv zeta in Hfr. destruct Hfr as (_ & _ & _ & _ & _ & Hmail & Hsel & _).
  cbn [screen shareEmail selectedFileId toasts] in *.
  rewrite Hmail, Hsel, Hts.
  split; [intros _ _; repeat split; exists ts; rewrite <- app_assoc;
          reflexivity|].
  split; [intros _; split; [exists c|]; reflexivity | intros _; split;
          reflexivity].
Qed.

Lemma share_clears_on_success_only_witness :
  let e := {| message := "permission denied for table files" |} in
  let w' := snd (Index.handleShare sample_backend (screen share_world) Served
                   (Fails e) Served share_world) in
  (screen w' = screen share_world /\ toasts w' = [share_error_toast e]) /\
  let w'' := snd (Index.handleShare sample_backend (screen share_world) Served
                    Served Served share_world) in
  selectedFileId (screen w'') = None /\ shareEmail (screen w'') = "".
Proof.
  intros e w'. split.
  - destruct (share_clears_on_success_only sample_backend Served (Fails e)
                Served share_world (fid := "f1") e None
                eq_refl eq_refl eq_refl) as (_ & H & _).
    destruct (H eq_refl eq_refl) as (Hs & _ & Ht). split; assumption.
  - intros w''.
    destruct (share_clears_on_success_only sample_backend Served Served
                Served share_world (fid := "f1") e None
                eq_refl eq_refl eq_refl) as (_ & _ & H & _).
    destruct (H eq_refl eq_refl) as (Hs & Hm & _). split; assumption.
Defined.

(** ** Guards of the handlers, and what the earlier revision leaves open *)

Lemma handleUpload_guard (B : Backend) (r : Screen) (uuid : string)
    (net_upload net_insert : Fault) (g : Generated) (net_refresh : Fault)
    (w : World) :
  selectedFile r = None \/ user r = None ->
  Index.handleUpload B r uuid net_upload net_insert g net_refresh w =
  (Normal tt, w).
Proof.
  unfold Index.handleUpload. intros [-> | ->]; [reflexivity|].
  destruct (selectedFile r); reflexivity.
Qed.

Lemma handleShare_guard (B : Backend) (r : Screen)
    (net_read net_write net_refresh : Fault) (w : World) :
  truthy_opt (selectedFileId r) = false \/ truthy (shareEmail r) = false ->
  Index.handleShare B r net_read net_write net_refresh w = (Normal tt, w).
Proof.
  unfold Index.handleShare. intros [H | H].
  - destruct (selectedFileId r) as [fid|]; [|reflexivity].
    cbn [truthy_opt] in H. rewrite H. reflexivity.
  - destruct (selectedFileId r) as [fid|]; [|reflexivity].
    rewrite H, andb_false_r. reflexivity.
Qed.

(** The earlier revision selects every row, whoever the user is. *)
Lemma legacy_fetchFiles_served (B : Backend) (w : World) :
  let w' := snd (IndexLegacy.fetchFiles B Served w) in
  requests w' = requests w ++ [ReqSelect (with_order "created_at" false select_all)] /\
  forall F, In F (files (screen w')) <-> In F (table w).
Proof.
  split; [reflexivity|]. intros F. simpl. rewrite arrange_In.
  rewrite filter_In. unfold matches_all. simpl. tauto.
Qed.

(** Its [fetchFiles] has no [try]: a rejected await leaves the handler as
    an exception, without a notification.  The client library reports a
    failed retrieval in the [error] of the response. *)
Lemma legacy_fetchFiles_rejected (B : Backend) (w : World) (e : Error) :
  fst (IndexLegacy.fetchFiles B (Rejects e) w) = Throw e /\
  toasts (snd (IndexLegacy.fetchFiles B (Rejects e) w)) = toasts w /\
  screen (snd (IndexLegacy.fetchFiles B (Rejects e) w)) = screen w.
Proof. repeat split. Qed.

(** The sample store matches without regard to case. *)
Example search_ignores_case :
  map filename
    (files (screen (snd (Index.fetchFiles sample_backend
                           (screen_of (Some {| User.id := "u-bob";
                                               User.email := Some "bob@example.org" |}))
                           {| fileType := None; searchQuery := Some "report";
                              sortBy := None; limit := None |}
                           Served sample_world)))) = ["Report.PDF"].
Proof. vm_compute. reflexivity. Qed.

(** * Further properties of the code *)

(** ** The listing of [fetchFiles] *)

Lemma place_Permutation (A : Type) (before : A -> A -> bool) (x : A)
    (l : list A) :
  Permutation (place before x l) (x :: l).
Proof.
  induction l as [|y l IH]; simpl; [reflexivity|].
  destruct (before x y); [reflexivity|].
  rewrite IH. apply perm_swap.
Qed.

Lemma arrange_Permutation (A : Type) (before : A -> A -> bool) (l : list A) :
  Permutation (arrange before l) l.
Proof.
  induction l as [|y l IH]; simpl; [reflexivity|].
  rewrite place_Permutation, IH. reflexivity.
Qed.

Lemma ordered_Permutation (B : Backend) (o : option (string * bool))
    (rows : list FileRecord) :
  Permutation (ordered B o rows) rows.
Proof.
  destruct o as [[c asc]|]; simpl; [apply arrange_Permutation | reflexivity].
Qed.

(** The list after a served [fetchFiles]. *)
Lemma fetchFiles_served_files (B : Backend) (r : Screen)
    (p : FetchFilesParams) (w : World) (uid mail : string) :
  resolved (user r) = Some (uid, mail) ->
  files (screen (snd (Index.fetchFiles B r p Served w))) =
  limited (limit_to (Index.fetchFiles_query uid mail p))
    (ordered B (Some (Index.finalSortBy (sortBy_or_default p), false))
       (matching B uid mail p (table w))).
Proof.
  intros Hr. rewrite (fetchFiles_served B r p w Hr). simpl.
  unfold selected, matching. rewrite query_order. reflexivity.
Qed.

(** X1: For a user whose id and address hold no character of the filter
    grammar.  With a type filter and a search term, the list of a served
    request without limit holds exactly the rows of the table that are
    visible to the user, have the type asked for and whose file name the
    store matches against the term wrapped in [%]. *)
Theorem listing_with_filters (B : Backend) (r : Screen)
    (p : FetchFilesParams) (w : World) (uid mail : string) (F : FileRecord) :
  resolved (user r) = Some (uid, mail) ->
  id_atom uid = true -> mail_atom mail = true -> unlimited p ->
  (In F (files (screen (snd (Index.fetchFiles B r p Served w)))) <->
   In F (table w) /\ Visible uid mail F /\
   (forall t, fileType p = Some t -> truthy t = true -> type F = t) /\
   (forall q, searchQuery p = Some q -> truthy q = true ->
      ilike B ("%" ++ q ++ "%")%string (filename F) = true)).
Proof.
  intros Hr _ _ Hl. rewrite (fetchFiles_served_files B r p w Hr).
  rewrite (unlimited_query uid mail Hl). cbn [limited].
  rewrite ordered_In. unfold matching. rewrite filter_In, query_filters.
  unfold matches_all. cbn [forallb matches]. rewrite forallb_app.
  rewrite !andb_true_iff, visible_to_Visible.
  assert (Ht :
    forallb (fun f => matches B f F)
      match fileType p with
      | Some t => if truthy t then [FEq "type" t] else []
      | None => []
      end = true <->
    (forall t, fileType p = Some t -> truthy t = true -> type F = t)).
  { destruct (fileType p) as [t|]; [destruct (truthy t) eqn:Tt|].
    - cbn. rewrite andb_true_r, String.eqb_eq. split.
      + intros E t' H _. injection H as <-. exact E.
      + intros H. apply (H t eq_refl Tt).
    - cbn. split; [|reflexivity]. intros _ t' H H'. injection H as <-.
      congruence.
    - cbn. split; [|reflexivity]. intros _ t' H. discriminate. }
  assert (Hs :
    forallb (fun f => matches B f F)
      (if truthy_opt (searchQuery p)
       then [FIlike "filename"
               ("%" ++ interpolate (searchQuery p) ++ "%")%string]
       else []) = true <->
    (forall q, searchQuery p = Some q -> truthy q = true ->
       ilike B ("%" ++ q ++ "%")%string (filename F) = true)).
  { destruct (searchQuery p) as [q|]; cbn [truthy_opt interpolate];
      [destruct (truthy q) eqn:Tq|].
    - cbn. rewrite andb_true_r. split.
      + intros E q' H _. injection H as <-. exact E.
      + intros H. apply (H q eq_refl Tq).
    - cbn. split; [|reflexivity]. intros _ q' H H'. injection H as <-.
      congruence.
    - cbn. split; [|reflexivity]. intros _ q' H. discriminate. }
  rewrite Ht, Hs. tauto.
Qed.

Lemma listing_with_filters_witness :
  In photo_png
     (files (screen (snd (Index.fetchFiles sample_backend
                            (screen sample_world)
                            {| fileType := Some "image/png";
                               searchQuery := Some "PHOTO";
                               sortBy := None; limit := None |}
                            Served sample_world)))).
Proof.
  apply (@listing_with_filters sample_backend (screen sample_world)
           {| fileType := Some "image/png"; searchQuery := Some "PHOTO";
              sortBy := None; limit := None |}
           sample_world "u-alice" "alice@example.org" photo_png
           eq_refl eq_refl eq_refl).
  - intros n H. discriminate H.
  - split; [right; left; reflexivity|]. split.
    + right. exists ["alice@example.org"]. split; [reflexivity|].
      left. reflexivity.
    + split.
      * intros t H _. injection H as <-. reflexivity.
      * intros q H _. injection H as <-. reflexivity.
Defined.

(** X2: An empty type, an empty search term, a limit of zero and a limit that
    is not a number are treated as if the parameter were not given: the same
    request is sent and the same state results, whatever the answer. *)
Theorem empty_parameters_are_absent (B : Backend) (r : Screen)
    (p : FetchFilesParams) (net : Fault) (w : World) :
  Index.fetchFiles B r (params_fileType (Some "") p) net w =
  Index.fetchFiles B r (params_fileType None p) net w /\
  Index.fetchFiles B r (params_searchQuery (Some "") p) net w =
  Index.fetchFiles B r (params_searchQuery None p) net w /\
  Index.fetchFiles B r (params_limit (Some (Num 0)) p) net w =
  Index.fetchFiles B r (params_limit None p) net w /\
  Index.fetchFiles B r (params_limit (Some NaN) p) net w =
  Index.fetchFiles B r (params_limit None p) net w.
Proof.
  unfold Index.fetchFiles.
  destruct (resolved (user r)) as [[uid mail]|]; repeat split.
Qed.

Lemma strongly_sorted_unique (A K : Type) (key : A -> K)
    (le : K -> K -> bool) (l1 l2 : list A) :
  (forall a b, le a b = true -> le b a = true -> a = b) ->
  StronglySorted (fun a b => le (key b) (key a) = true) l1 ->
  StronglySorted (fun a b => le (key b) (key a) = true) l2 ->
  Permutation l1 l2 -> NoDup (map key l1) -> l1 = l2.
Proof.
  intros Hanti. revert l2.
  induction l1 as [|a l1 IH]; intros l2 S1 S2 Hp Hnd.
  - apply Permutation_nil in Hp. congruence.
  - destruct l2 as [|b l2].
    { apply Permutation_sym, Permutation_nil in Hp. discriminate. }
    inversion S1 as [|? ? S1' F1]; subst.
    inversion S2 as [|? ? S2' F2]; subst.
    inversion Hnd as [|? ? Hnotin Hnd']; subst.
    assert (E : a = b).
    { assert (Ha : In a (b :: l2))
        by (eapply Permutation_in; [exact Hp | left; reflexivity]).
      assert (Hb : In b (a :: l1))
        by (eapply Permutation_in;
            [apply Permutation_sym; exact Hp | left; reflexivity]).
      destruct Ha as [Ha | Ha]; [congruence|].
      destruct Hb as [Hb | Hb]; [congruence|].
      rewrite Forall_forall in F1, F2.
      pose proof (F1 b Hb) as Hab. pose proof (F2 a Ha) as Hba.
      exfalso. apply Hnotin. rewrite (Hanti _ _ Hba Hab).
      apply in_map. exact Hb. }
    subst b. f_equal. apply IH; try assumption.
    eapply Permutation_cons_inv. exact Hp.
Qed.

(** A table has one descending arrangement when no two rows share the sort
    key. *)
Lemma descending_unique (B : Backend) (c : string)
    (l1 l2 : list FileRecord) :
  total_order (col_leb B c) ->
  descending B c l1 -> descending B c l2 ->
  Permutation l1 l2 -> NoDup (map (sort_key c) l1) -> l1 = l2.
Proof.
  intros (_ & Htrans & Hanti) S1 S2 Hp Hnd.
  apply (strongly_sorted_unique (sort_key c) (col_leb B c)); try assumption.
  - apply Sorted_StronglySorted; [|exact S1].
    intros x y z Hxy Hyz. exact (Htrans _ _ _ Hyz Hxy).
  - apply Sorted_StronglySorted; [|exact S2].
    intros x y z Hxy Hyz. exact (Htrans _ _ _ Hyz Hxy).
Qed.

Lemma string_compare_trans (s1 s2 s3 : string) :
  String.compare s1 s2 <> Gt -> String.compare s2 s3 <> Gt ->
  String.compare s1 s3 <> Gt.
Proof.
  revert s2 s3. induction s1 as [|a s1 IH]; intros [|b s2] [|c s3]; simpl;
    try congruence.
  unfold Ascii.compare.
  destruct (N.compare_spec (N_of_ascii a) (N_of_ascii b)),
    (N.compare_spec (N_of_ascii b) (N_of_ascii c)),
    (N.compare_spec (N_of_ascii a) (N_of_ascii c));
    try congruence; try lia.
  apply IH.
Qed.

Lemma string_leb_total_order : total_order String.leb.
Proof.
  split; [apply String.leb_total|]. split; [|apply String.leb_antisym].
  intros a b c. unfold String.leb.
  pose proof (string_compare_trans a b c) as H.
  destruct (String.compare a b), (String.compare b c), (String.compare a c);
    intros H1 H2; try reflexivity; try discriminate; exfalso; apply H;
    discriminate || reflexivity.
Qed.

(** X3: When the store's order on the sort column is a total order and no
    two rows that pass the filters share the sort key, the rows have one
    descending arrangement: the request without limit lists it, and a
    limit between 1 and 100 lists its first rows.  (With equal sort keys
    the query does not say which of them comes first.) *)
Theorem limit_is_prefix (B : Backend) (r : Screen) (p : FetchFilesParams)
    (w : World) (uid mail : string) (n : Z) (arranged : list FileRecord) :
  resolved (user r) = Some (uid, mail) ->
  (1 <= n <= 100)%Z ->
  let c := Index.finalSortBy (sortBy_or_default p) in
  total_order (col_leb B c) ->
  NoDup (map (sort_key c) (matching B uid mail p (table w))) ->
  Permutation arranged (matching B uid mail p (table w)) ->
  descending B c arranged ->
  files (screen (snd (Index.fetchFiles B r (params_limit None p)
                        Served w))) = arranged /\
  files (screen (snd (Index.fetchFiles B r (params_limit (Some (Num n)) p)
                        Served w))) = firstn (Z.to_nat n) arranged.
Proof.
  intros Hr Hn c Hord Hnd Hp Hs.
  assert (E : ordered B (Some (c, false)) (matching B uid mail p (table w)) =
              arranged).
  { apply (descending_unique (B := B) (c := c) Hord).
    - apply (arrange_Sorted (precedes B c false)).
      intros a b. unfold precedes. apply Hord.
    - exact Hs.
    - rewrite ordered_Permutation. symmetry. exact Hp.
    - apply (Permutation_NoDup (l := map (sort_key c)
                                        (matching B uid mail p (table w))));
        [|exact Hnd].
      apply Permutation_map. symmetry. apply ordered_Permutation. }
  rewrite !(fetchFiles_served_files B r _ w Hr).
  rewrite !query_limit. cbn [limit params_limit].
  replace ((1 <=? n)%Z && (n <=? 100)%Z) with true by lia.
  cbn [limited].
  assert (Hm : forall l, matching B uid mail (params_limit l p) (table w) =
                         matching B uid mail p (table w)).
  { intros l. unfold matching. rewrite !query_filters. reflexivity. }
  rewrite !Hm.
  change (Index.finalSortBy (sortBy_or_default (params_limit None p)))
    with c.
  change (Index.finalSortBy (sortBy_or_default (params_limit (Some (Num n)) p)))
    with c.
  rewrite E. split; reflexivity.
Qed.

Lemma limit_is_prefix_witness :
  files (screen (snd (Index.fetchFiles sample_backend (screen sample_world)
                        (params_limit (Some (Num 1)) no_params)
                        Served sample_world))) = [photo_png].
Proof.
  destruct (@limit_is_prefix sample_backend (screen sample_world) no_params
              sample_world "u-alice" "alice@example.org" 1
              [photo_png; notes_txt] eq_refl ltac:(lia)) as [_ H].
  - apply string_leb_total_order.
  - repeat constructor; cbn; intuition discriminate.
  - apply perm_swap.
  - repeat constructor.
  - exact H.
Defined.

(** X4: Whatever the sort parameter, the list of a served request is in
    descending order of the column that [fetchFiles] settles on, for any
    total order the store has on that column. *)
Theorem listing_sorted (B : Backend) (r : Screen) (p : FetchFilesParams)
    (w : World) (uid mail : string) :
  resolved (user r) = Some (uid, mail) ->
  let c := Index.finalSortBy (sortBy_or_default p) in
  (forall a b, col_leb B c a b = true \/ col_leb B c b a = true) ->
  includes Index.allowedSortColumns c = true /\
  Sorted (fun a b => col_leb B c (sort_key c b) (sort_key c a) = true)
    (files (screen (snd (Index.fetchFiles B r p Served w)))).
Proof.
  intros Hr c Htot. split; [apply finalSortBy_allowed|].
  rewrite (fetchFiles_served_files B r p w Hr). fold c.
  assert (Hs : Sorted (fun a b => precedes B c false a b = true)
                 (ordered B (Some (c, false)) (matching B uid mail p (table w)))).
  { apply arrange_Sorted. intros a b. unfold precedes. apply Htot. }
  destruct (limit_to _) as [k|]; cbn [limited];
    [apply firstn_Sorted|]; exact Hs.
Qed.

Lemma listing_sorted_witness :
  Sorted (fun a b => String.leb (filename b) (filename a) = true)
    (files (screen (snd (Index.fetchFiles sample_backend (screen sample_world)
                           (params_sortBy (Some "filename") no_params)
                           Served sample_world)))).
Proof.
  apply (@listing_sorted sample_backend (screen sample_world)
           (params_sortBy (Some "filename") no_params) sample_world
           "u-alice" "alice@example.org" eq_refl).
  intros a b. apply String.leb_total.
Defined.

(** X5: Ordering and limiting neither invent nor repeat rows: the list of a
    served request, together with the rows that the limit cut off, is a
    rearrangement of the rows of the table that pass the filters; without an
    accepted limit nothing is cut off. *)
Theorem listing_rearranges (B : Backend) (r : Screen) (p : FetchFilesParams)
    (w : World) (uid mail : string) :
  resolved (user r) = Some (uid, mail) ->
  exists cut,
    Permutation
      (files (screen (snd (Index.fetchFiles B r p Served w))) ++ cut)
      (matching B uid mail p (table w)) /\
    (unlimited p -> cut = []).
Proof.
  intros Hr. rewrite (fetchFiles_served_files B r p w Hr).
  destruct (limit_to (Index.fetchFiles_query uid mail p)) as [k|] eqn:E;
    cbn [limited].
  - eexists (skipn (Z.to_nat k) _). split.
    + rewrite firstn_skipn. apply ordered_Permutation.
    + intros Hl. rewrite (unlimited_query uid mail Hl) in E. discriminate.
  - exists []. split; [|reflexivity].
    rewrite app_nil_r. apply ordered_Permutation.
Qed.

Lemma listing_rearranges_witness :
  exists cut,
    Permutation
      (files (screen (snd (Index.fetchFiles sample_backend
                             (screen sample_world) no_params Served
                             sample_world))) ++ cut)
      [notes_txt; photo_png].
Proof.
  destruct (@listing_rearranges sample_backend (screen sample_world)
              no_params sample_world "u-alice" "alice@example.org" eq_refl)
    as (cut & H & _).
  exists cut. exact H.
Defined.

(** ** Upload: what it keeps, what it adds *)

Lemma legacy_handleUpload_guard (B : Backend) (r : Screen) (uuid : string)
    (net_upload net_insert : Fault) (g : Generated) (net_refresh : Fault)
    (w : World) :
  selectedFile r = None \/ user r = None ->
  IndexLegacy.handleUpload B r uuid net_upload net_insert g net_refresh w =
  (Normal tt, w).
Proof.
  unfold IndexLegacy.handleUpload. intros [-> | ->]; [reflexivity|].
  destruct (selectedFile r); reflexivity.
Qed.

(** The end of a successful upload, for a refresh that keeps the table, the
    bucket and the picked file. *)
Lemma upload_success_screen (refresh : Action unit) (w : World)
    (key : string) (file : File.t) (payload : InsertPayload) (g : Generated) :
  (forall v, table (snd (refresh v)) = table v /\
             bucket (snd (refresh v)) = bucket v /\
             selectedFile (screen (snd (refresh v))) =
             selectedFile (screen v)) ->
  let w' :=
    snd ((setIsUploading true ;;
          send (ReqStorageUpload key file) ;;
          set_bucket (bucket w ++ [(key, file)]) ;;
          send (ReqInsert payload) ;;
          set_table (table w ++ [row_of payload g]) ;;
          toast upload_success_toast ;;
          setSelectedFile None ;;
          unawaited refresh ;;
          setIsUploading false) w) in
  bucket w' = bucket w ++ [(key, file)] /\
  table w' = table w ++ [row_of payload g] /\
  isUploading (screen w') = false /\
  selectedFile (screen w') = None.
Proof.
  intros Hfr. cbn.
  match goal with
  | |- context [refresh ?v] => destruct (Hfr v) as (Ht & Hb & Hs)
  end.
  rewrite Ht, Hb, Hs. repeat split.
Qed.

Lemma fetchFiles_keeps (B : Backend) (r : Screen) (p : FetchFilesParams)
    (net : Fault) (v : World) :
  table (snd (Index.fetchFiles B r p net v)) = table v /\
  bucket (snd (Index.fetchFiles B r p net v)) = bucket v /\
  selectedFile (screen (snd (Index.fetchFiles B r p net v))) =
  selectedFile (screen v).
Proof.
  destruct (fetchFiles_frame B r p net v) as (H1 & H2 & _ & _ & H3 & _).
  repeat split; assumption.
Qed.

Lemma legacy_fetchFiles_keeps (B : Backend) (net : Fault) (v : World) :
  table (snd (IndexLegacy.fetchFiles B net v)) = table v /\
  bucket (snd (IndexLegacy.fetchFiles B net v)) = bucket v /\
  selectedFile (screen (snd (IndexLegacy.fetchFiles B net v))) =
  selectedFile (screen v).
Proof.
  destruct (legacy_fetchFiles_frame B net v) as (H1 & H2 & H3 & _).
  repeat split; assumption.
Qed.

(** X6: Without a picked file or without a user, [handleUpload] of either
    revision does nothing: no request, no notification, and the busy flag
    is not touched. *)
Theorem upload_needs_file_and_user (B : Backend) (r : Screen)
    (uuid : string) (net_upload net_insert : Fault) (g : Generated)
    (net_refresh : Fault) (w : World) :
  selectedFile r = None \/ user r = None ->
  Index.handleUpload B r uuid net_upload net_insert g net_refresh w =
  (Normal tt, w) /\
  IndexLegacy.handleUpload B r uuid net_upload net_insert g net_refresh w =
  (Normal tt, w).
Proof.
  intros H. split;
    [apply handleUpload_guard | apply legacy_handleUpload_guard]; exact H.
Qed.

Lemma upload_needs_file_and_user_witness :
  Index.handleUpload sample_backend (screen sample_world) sample_uuid
    Served Served sample_generated Served sample_world =
  (Normal tt, sample_world).
Proof.
  apply (@upload_needs_file_and_user sample_backend (screen sample_world)
           sample_uuid Served Served sample_generated Served sample_world).
  left. reflexivity.
Defined.

(** X7: An upload never removes or rewrites what is there: the table and the
    bucket afterwards are the ones before with at most one row and at most
    one object added at the end, and a row is added only together with its
    object.  This holds for every answer of the platform. *)
Theorem upload_only_adds (B : Backend) (r : Screen) (uuid : string)
    (net_upload net_insert : Fault) (g : Generated) (net_refresh : Fault)
    (w : World) :
  let w' := snd (Index.handleUpload B r uuid net_upload net_insert g
                   net_refresh w) in
  exists rows objects,
    table w' = table w ++ rows /\ bucket w' = bucket w ++ objects /\
    length rows <= length objects <= 1.
Proof.
  intros w'. subst w'.
  destruct (selectedFile r) as [file|] eqn:Hf;
    [destruct (user r) as [u|] eqn:Hu|].
  - rewrite (handleUpload_run B r uuid net_upload net_insert g net_refresh w
               Hf Hu).
    destruct (upload_failure net_upload (storage_key uuid file) (bucket w)).
    { exists [], []. cbn. rewrite !app_nil_r. repeat split; lia. }
    destruct (fault_error net_insert).
    { exists [], [(storage_key uuid file, file)]. cbn. rewrite app_nil_r.
      repeat split; lia. }
    destruct (upload_success_screen
                (Index.fetchFiles B r no_params net_refresh) w
                (storage_key uuid file) file (upload_payload B uuid file u) g
                (fetchFiles_keeps B r no_params net_refresh))
      as (Hb & Ht & _).
    eexists [_], [_]. rewrite Hb, Ht. repeat split; simpl; lia.
  - rewrite handleUpload_guard by (right; exact Hu).
    exists [], []. cbn. rewrite !app_nil_r. repeat split; lia.
  - rewrite handleUpload_guard by (left; exact Hf).
    exists [], []. cbn. rewrite !app_nil_r. repeat split; lia.
Qed.

(** X8: The two revisions of [handleUpload] differ only in the refresh: for the
    same inputs they end with the same table, the same bucket, the same
    picked file and the same busy flag. *)
Theorem upload_revisions_agree (B : Backend) (r : Screen) (uuid : string)
    (net_upload net_insert : Fault) (g : Generated)
    (net_refresh net_refresh' : Fault) (w : World) :
  let w1 := snd (Index.handleUpload B r uuid net_upload net_insert g
                   net_refresh w) in
  let w2 := snd (IndexLegacy.handleUpload B r uuid net_upload net_insert g
                   net_refresh' w) in
  table w1 = table w2 /\ bucket w1 = bucket w2 /\
  selectedFile (screen w1) = selectedFile (screen w2) /\
  isUploading (screen w1) = isUploading (screen w2).
Proof.
  intros w1 w2. subst w1 w2.
  destruct (selectedFile r) as [file|] eqn:Hf;
    [destruct (user r) as [u|] eqn:Hu|].
  - rewrite (handleUpload_run B r uuid net_upload net_insert g net_refresh w
               Hf Hu).
    rewrite (legacy_handleUpload_run B r uuid net_upload net_insert g
               net_refresh' w Hf Hu).
    destruct (upload_failure net_upload (storage_key uuid file) (bucket w));
      [repeat split|].
    destruct (fault_error net_insert); [repeat split|].
    destruct (upload_success_screen
                (Index.fetchFiles B r no_params net_refresh) w
                (storage_key uuid file) file (upload_payload B uuid file u) g
                (fetchFiles_keeps B r no_params net_refresh))
      as (Hb & Ht & Hu1 & Hs).
    destruct (upload_success_screen
                (IndexLegacy.fetchFiles B net_refresh') w
                (storage_key uuid file) file (upload_payload B uuid file u) g
                (legacy_fetchFiles_keeps B net_refresh'))
      as (Hb' & Ht' & Hu1' & Hs').
    rewrite Hb, Ht, Hu1, Hs, Hb', Ht', Hu1', Hs'. repeat split.
  - rewrite handleUpload_guard, legacy_handleUpload_guard
      by (right; exact Hu). repeat split.
  - rewrite handleUpload_guard, legacy_handleUpload_guard
      by (left; exact Hf). repeat split.
Qed.

(** X9: The row of a successful upload names the uploader by the address of
    the user, and by "Unknown" when the user has no address or an empty
    one. *)
Theorem upload_fullname (B : Backend) (r : Screen) (uuid : string)
    (g : Generated) (net_refresh : Fault) (w : World) (file : File.t)
    (u : User.t) :
  selectedFile r = Some file -> user r = Some u ->
  stored (storage_key uuid file) (bucket w) = false ->
  exists row,
    table (snd (Index.handleUpload B r uuid Served Served g net_refresh w)) =
    table w ++ [row] /\
    (forall m, User.email u = Some m -> m <> "" -> fullname row = m) /\
    (User.email u = None \/ User.email u = Some "" ->
     fullname row = "Unknown").
Proof.
  intros Hf Hu Hfree.
  destruct (handleUpload_success B r uuid g net_refresh w Hf Hu Hfree)
    as [_ Ht].
  eexists. split; [exact Ht|].
  cbn [row_of fullname upload_payload ins_fullname]. split.
  - intros m -> Hm. unfold or_else, truthy.
    destruct (String.eqb_spec m ""); [contradiction | reflexivity].
  - intros [-> | ->]; reflexivity.
Qed.

Lemma upload_fullname_witness :
  exists row,
    table (snd (Index.handleUpload sample_backend dana_screen sample_uuid
                  Served Served sample_generated Served
                  (world_of dana_screen []))) = [row] /\
    fullname row = "Unknown".
Proof.
  destruct (@upload_fullname sample_backend dana_screen sample_uuid
              sample_generated Served (world_of dana_screen []) a_txt dana
              eq_refl eq_refl eq_refl) as (row & Ht & _ & Hn).
  exists row. split; [exact Ht | apply Hn; left; reflexivity].
Defined.

(** X10: For a user whose id or address is not resolved, a successful upload of
    [Index.tsx] puts the row in the table but sends no select: the list on
    the screen stays as it was.  The earlier revision refreshes: when its
    select is served, the new row is in the list. *)
Theorem upload_without_address_is_not_listed (B : Backend) (r : Screen)
    (uuid : string) (g : Generated) (net_refresh : Fault) (w : World)
    (file : File.t) (u : User.t) :
  selectedFile r = Some file -> user r = Some u ->
  resolved (user r) = None ->
  stored (storage_key uuid file) (bucket w) = false ->
  let row := row_of (upload_payload B uuid file u) g in
  let w1 := snd (Index.handleUpload B r uuid Served Served g net_refresh w) in
  let w2 := snd (IndexLegacy.handleUpload B r uuid Served Served g Served w) in
  (In row (table w1) /\
   files (screen w1) = files (screen w) /\
   requests w1 =
   requests w ++ [ReqStorageUpload (storage_key uuid file) file;
                  ReqInsert (upload_payload B uuid file u)]) /\
  In row (files (screen w2)).
Proof.
  intros Hf Hu Hr Hfree row w1 w2. subst w1 w2. split.
  - rewrite (handleUpload_run B r uuid Served Served g net_refresh w Hf Hu).
    cbn [upload_failure fault_error]. rewrite Hfree.
    cbn -[Index.fetchFiles].
    rewrite (fetchFiles_unresolved B r no_params net_refresh _ Hr).
    cbn. rewrite <- app_assoc. repeat split.
    apply in_or_app. right. left. reflexivity.
  - rewrite (legacy_handleUpload_run B r uuid Served Served g Served w Hf Hu).
    cbn [upload_failure fault_error]. rewrite Hfree.
    cbn -[IndexLegacy.fetchFiles].
    match goal with
    | |- context [IndexLegacy.fetchFiles B Served ?v] =>
        destruct (legacy_fetchFiles_served B v) as [_ H]
    end.
    apply H. cbn. apply in_or_app. right. left. reflexivity.
Qed.

Lemma upload_without_address_is_not_listed_witness :
  let w := world_of dana_screen [] in
  let w1 := snd (Index.handleUpload sample_backend dana_screen sample_uuid
                   Served Served sample_generated Served w) in
  length (table w1) = 1 /\ files (screen w1) = [] /\
  existsb is_select (requests w1) = false.
Proof.
  intros w w1.
  destruct (@upload_without_address_is_not_listed sample_backend dana_screen
              sample_uuid sample_generated Served w a_txt dana
              eq_refl eq_refl eq_refl eq_refl) as [(_ & Hfiles & Hreq) _].
  fold w1 in Hfiles, Hreq. rewrite Hfiles, Hreq. repeat split.
Defined.

(** X11: After an upload from the current render: when it failed, the file is
    still picked and the button is enabled again, labelled "Upload", so the
    user can retry; when it succeeded, no file is picked and the button is
    disabled. *)
Theorem upload_button_after_upload (B : Backend) (uuid : string)
    (net_upload net_insert : Fault) (g : Generated) (net_refresh : Fault)
    (w : World) (file : File.t) (u : User.t) :
  selectedFile (screen w) = Some file -> user (screen w) = Some u ->
  let w' := snd (Index.handleUpload B (screen w) uuid net_upload net_insert
                   g net_refresh w) in
  upload_label (screen w') = "Upload" /\
  (upload_failure net_upload (storage_key uuid file) (bucket w) <> None \/
   fault_error net_insert <> None ->
   selectedFile (screen w') = Some file /\
   upload_disabled (screen w') = false) /\
  (upload_failure net_upload (storage_key uuid file) (bucket w) = None ->
   fault_error net_insert = None ->
   selectedFile (screen w') = None /\
   upload_disabled (screen w') = true).
Proof.
  intros Hf Hu w'. subst w'.
  rewrite (handleUpload_run B (screen w) uuid net_upload net_insert g
             net_refresh w Hf Hu).
  unfold upload_label, upload_disabled.
  destruct (upload_failure net_upload (storage_key uuid file) (bucket w))
    as [e|].
  { cbn. rewrite Hf. repeat split; discriminate. }
  destruct (fault_error net_insert) as [e|].
  { cbn. rewrite Hf. repeat split; discriminate. }
  destruct (upload_success_screen
              (Index.fetchFiles B (screen w) no_params net_refresh) w
              (storage_key uuid file) file (upload_payload B uuid file u) g
              (fetchFiles_keeps B (screen w) no_params net_refresh))
    as (_ & _ & Hbusy & Hsel).
  rewrite Hbusy, Hsel. split; [reflexivity|]. split.
  - intros [H|H]; contradiction.
  - intros _ _. split; reflexivity.
Qed.

Lemma upload_button_after_upload_witness :
  let e := {| message := "Payload too large" |} in
  let w' := snd (Index.handleUpload sample_backend (screen upload_world)
                   sample_uuid (Fails e) Served sample_generated Served
                   upload_world) in
  selectedFile (screen w') = Some a_txt /\
  upload_disabled (screen w') = false.
Proof.
  intros e w'.
  destruct (@upload_button_after_upload sample_backend sample_uuid (Fails e)
              Served sample_generated Served upload_world a_txt alice
              eq_refl eq_refl) as (_ & H & _).
  apply H. left. discriminate.
Defined.

(** ** Upload: extension and storage key *)

Lemma split_concat (s : string) : String.concat "." (split "." s) = s.
Proof.
  induction s as [|a s IH]; [reflexivity|].
  cbn [split]. destruct (Ascii.eqb_spec a ".") as [->|Ha].
  - destruct (split "." s) as [|p l] eqn:E.
    { exfalso. eapply split_not_nil; eassumption. }
    cbn [String.concat]. rewrite <- IH. reflexivity.
  - destruct (split "." s) as [|p l] eqn:E.
    { exfalso. eapply split_not_nil; eassumption. }
    rewrite <- IH. destruct l; reflexivity.
Qed.

Lemma last_piece_suffix (s e : string) :
  pop (split "." s) = Some e ->
  has_dot e = false /\ exists pre, s = (pre ++ e)%string.
Proof.
  revert e. induction s as [|a s IH]; intros e H.
  - injection H as <-. split; [reflexivity | exists ""; reflexivity].
  - cbn [split] in H. destruct (Ascii.eqb_spec a ".") as [->|Ha].
    + rewrite pop_cons in H by apply split_not_nil.
      destruct (IH e H) as [Hd [pre ->]].
      split; [exact Hd | exists (String "." pre); reflexivity].
    + pose proof (split_concat s) as Hc.
      destruct (split "." s) as [|p l] eqn:E.
      { exfalso. eapply split_not_nil; eassumption. }
      destruct l as [|p2 l].
      * injection H as <-. cbn in Hc. subst p.
        destruct (IH s eq_refl) as [Hd _]. split; [|exists ""; reflexivity].
        rewrite has_dot_cons, Hd.
        destruct (Ascii.eqb_spec "." a); [congruence | reflexivity].
      * rewrite pop_cons in H by discriminate.
        rewrite <- (pop_cons p) in H by discriminate.
        destruct (IH e H) as [Hd [pre ->]].
        split; [exact Hd | exists (String a pre); reflexivity].
Qed.

(** X12: The extension that a successful upload writes into the row has no dot
    in it and is the end of the file name, whatever the name: several dots,
    none, a leading or a trailing one. *)
Theorem upload_extension_is_suffix (B : Backend) (r : Screen)
    (uuid : string) (g : Generated) (net_refresh : Fault) (w : World)
    (file : File.t) (u : User.t) :
  selectedFile r = Some file -> user r = Some u ->
  stored (storage_key uuid file) (bucket w) = false ->
  exists row pre,
    table (snd (Index.handleUpload B r uuid Served Served g net_refresh w)) =
    table w ++ [row] /\
    has_dot (extension row) = false /\
    File.name file = (pre ++ extension row)%string /\
    storage_key uuid file = (uuid ++ "." ++ extension row)%string.
Proof.
  intros Hf Hu Hfree.
  destruct (handleUpload_success B r uuid g net_refresh w Hf Hu Hfree)
    as [_ Ht].
  destruct (pop_split_defined "." (File.name file)) as [e He].
  destruct (last_piece_suffix _ He) as [Hd [pre Hn]].
  exists (row_of (upload_payload B uuid file u) g), pre.
  split; [exact Ht|].
  unfold storage_key. cbn [row_of extension upload_payload ins_extension].
  rewrite He, or_else_empty. repeat split; assumption.
Qed.

Lemma upload_extension_is_suffix_witness :
  let tgz := {| File.name := "backup.2024.tar.gz"; File.type := "";
                File.bytes := [] |} in
  let s := {| files := []; user := Some alice; selectedFile := Some tgz;
              shareEmail := ""; selectedFileId := None;
              isUploading := false |} in
  exists row,
    table (snd (Index.handleUpload sample_backend s sample_uuid Served Served
                  sample_generated Served (world_of s []))) = [row] /\
    has_dot (extension row) = false.
Proof.
  intros tgz s.
  destruct (@upload_extension_is_suffix sample_backend s sample_uuid
              sample_generated Served (world_of s []) tgz alice
              eq_refl eq_refl eq_refl) as (row & pre & Ht & Hd & _).
  exists row. split; assumption.
Defined.

Lemma append_dot_injective (u1 u2 a b : string) :
  has_dot u1 = false -> has_dot u2 = false ->
  (u1 ++ "." ++ a)%string = (u2 ++ "." ++ b)%string -> u1 = u2 /\ a = b.
Proof.
  revert u2. induction u1 as [|c u1 IH]; intros [|d u2] H1 H2 E.
  - injection E as ->. split; reflexivity.
  - injection E as <- _. rewrite has_dot_cons in H2. discriminate.
  - injection E as -> _. rewrite has_dot_cons in H1. discriminate.
  - injection E as -> E. rewrite has_dot_cons in H1, H2.
    apply orb_false_iff in H1 as [_ H1]. apply orb_false_iff in H2 as [_ H2].
    destruct (IH u2 H1 H2 E) as [-> ->]. split; reflexivity.
Qed.

Lemma stored_app (key : string) (b1 b2 : list (string * File.t)) :
  stored key (b1 ++ b2) = stored key b1 || stored key b2.
Proof. apply existsb_app. Qed.

(** X13: Tokens keep uploads apart.  Two tokens without a dot (a UUID has none)
    that differ give different storage keys, whatever the two files are
    called; so whatever an upload under one token did, it does not take the
    key of an upload under the other. *)
Theorem tokens_keep_keys_apart (B : Backend) (r : Screen)
    (uuid1 uuid2 : string) (net_upload net_insert : Fault) (g : Generated)
    (net_refresh : Fault) (w : World) (file1 file2 : File.t) :
  has_dot uuid1 = false -> has_dot uuid2 = false -> uuid1 <> uuid2 ->
  selectedFile r = Some file1 ->
  storage_key uuid1 file1 <> storage_key uuid2 file2 /\
  stored (storage_key uuid2 file2)
    (bucket (snd (Index.handleUpload B r uuid1 net_upload net_insert g
                    net_refresh w))) =
  stored (storage_key uuid2 file2) (bucket w).
Proof.
  intros H1 H2 Hne Hf.
  assert (Hk : storage_key uuid1 file1 <> storage_key uuid2 file2).
  { unfold storage_key. intros E.
    destruct (append_dot_injective _ _ _ _ H1 H2 E) as [E1 _]. contradiction. }
  split; [exact Hk|].
  assert (Hcons : stored (storage_key uuid2 file2)
                    (bucket w ++ [(storage_key uuid1 file1, file1)]) =
                  stored (storage_key uuid2 file2) (bucket w)).
  { rewrite stored_app. unfold stored at 2. cbn.
    destruct (String.eqb_spec (storage_key uuid1 file1)
                (storage_key uuid2 file2)); [contradiction|].
    rewrite !orb_false_r. reflexivity. }
  destruct (user r) as [u|] eqn:Hu.
  - rewrite (handleUpload_run B r uuid1 net_upload net_insert g net_refresh w
               Hf Hu).
    destruct (upload_failure net_upload (storage_key uuid1 file1) (bucket w));
      [reflexivity|].
    destruct (fault_error net_insert); [exact Hcons|].
    destruct (upload_success_screen
                (Index.fetchFiles B r no_params net_refresh) w
                (storage_key uuid1 file1) file1
                (upload_payload B uuid1 file1 u) g
                (fetchFiles_keeps B r no_params net_refresh))
      as (Hb & _).
    rewrite Hb. exact Hcons.
  - rewrite handleUpload_guard by (right; exact Hu). reflexivity.
Qed.

Lemma tokens_keep_keys_apart_witness :
  storage_key sample_uuid a_txt <>
  storage_key "00000000-0000-4000-8000-000000000000" a_txt.
Proof.
  apply (@tokens_keep_keys_apart sample_backend upload_screen sample_uuid
           "00000000-0000-4000-8000-000000000000" Served Served
           sample_generated Served upload_world a_txt a_txt
           eq_refl eq_refl).
  - discriminate.
  - reflexivity.
Defined.

(** ** Share: what it sends and what it keeps *)

Lemma read_shared_with_inr (net : Fault) (fid : string)
    (tbl : list FileRecord) (current : option (list string)) :
  read_shared_with net fid tbl = inr current ->
  exists row, filter (has_id fid) tbl = [row] /\ current = shared_with row.
Proof.
  unfold read_shared_with. destruct net; try discriminate.
  destruct (filter (has_id fid) tbl) as [|row [|row' rows]];
    try discriminate.
  intros H. injection H as <-. exists row. split; reflexivity.
Qed.

(** The table and the bucket after [handleShare], whatever happened. *)
Lemma handleShare_table (B : Backend) (r : Screen)
    (net_read net_write net_refresh : Fault) (w : World) :
  let w' := snd (Index.handleShare B r net_read net_write net_refresh w) in
  bucket w' = bucket w /\
  (table w' = table w \/
   exists fid row,
     selectedFileId r = Some fid /\
     filter (has_id fid) (table w) = [row] /\
     table w' =
     shared_with_set fid (or_empty (shared_with row) ++ [shareEmail r])
       (table w)).
Proof.
  intros w'. subst w'.
  destruct (selectedFileId r) as [fid|] eqn:Hid.
  2: { rewrite handleShare_guard by (left; rewrite Hid; reflexivity).
       split; [reflexivity | left; reflexivity]. }
  destruct (truthy fid) eqn:Tid.
  2: { rewrite handleShare_guard
         by (left; rewrite Hid; cbn [truthy_opt]; exact Tid).
       split; [reflexivity | left; reflexivity]. }
  destruct (truthy (shareEmail r)) eqn:Tmail.
  2: { rewrite handleShare_guard by (right; exact Tmail).
       split; [reflexivity | left; reflexivity]. }
  rewrite (handleShare_run B r net_read net_write net_refresh w Hid Tid Tmail).
  destruct (read_shared_with net_read fid (table w)) as [e|current] eqn:Er.
  { split; [reflexivity | left; reflexivity]. }
  cbv zeta. destruct (fault_error net_write) as [e|].
  { split; [reflexivity | left; reflexivity]. }
  destruct (read_shared_with_inr _ _ _ Er) as (row & Hrow & ->).
  cbn -[Index.fetchFiles].
  match goal with
  | |- context [Index.fetchFiles B r no_params net_refresh ?v] =>
      destruct (fetchFiles_frame B r no_params net_refresh v)
        as (Ht & Hb & _)
  end.
  rewrite Ht, Hb. split; [reflexivity|]. right. exists fid, row.
  repeat split. exact Hrow.
Qed.

Lemma Forall2_map_same (A : Type) (R : A -> A -> Prop) (f : A -> A)
    (l : list A) :
  (forall x, In x l -> R x (f x)) -> Forall2 R l (map f l).
Proof.
  induction l as [|x l IH]; intros H; [constructor|].
  constructor; [apply H; left; reflexivity|].
  apply IH. intros y Hy. apply H. right. exact Hy.
Qed.

(** X14: Without a picked file id or without an address typed, [handleShare]
    does nothing: no request, no notification, nothing cleared. *)
Theorem share_needs_file_and_address (B : Backend) (r : Screen)
    (net_read net_write net_refresh : Fault) (w : World) :
  selectedFileId r = None \/ selectedFileId r = Some "" \/ shareEmail r = "" ->
  Index.handleShare B r net_read net_write net_refresh w = (Normal tt, w).
Proof.
  intros H. apply handleShare_guard.
  destruct H as [-> | [-> | ->]]; [left | left | right]; reflexivity.
Qed.

Lemma share_needs_file_and_address_witness :
  Index.handleShare sample_backend
    {| files := []; user := Some alice; selectedFile := None;
       shareEmail := ""; selectedFileId := Some "f1"; isUploading := false |}
    Served Served Served sample_world = (Normal tt, sample_world).
Proof.
  apply (@share_needs_file_and_address sample_backend
           {| files := []; user := Some alice; selectedFile := None;
              shareEmail := ""; selectedFileId := Some "f1";
              isUploading := false |} Served Served Served sample_world).
  right. right. reflexivity.
Defined.

(** X15: The requests of a share, in order.  When the read fails, it is the only
    request: no update is sent.  When the update fails, read and update are
    the only requests.  The update carries the list read (empty when null)
    followed by the address; the refresh is sent after a successful update
    only, and only for a resolved user. *)
Theorem share_requests (B : Backend) (r : Screen)
    (net_read net_write net_refresh : Fault) (w : World) (fid : string)
    (e : Error) (current : option (list string)) :
  selectedFileId r = Some fid -> truthy fid = true ->
  truthy (shareEmail r) = true ->
  let w' := snd (Index.handleShare B r net_read net_write net_refresh w) in
  let update :=
    ReqUpdateSharedWith fid (or_empty current ++ [shareEmail r]) in
  (read_shared_with net_read fid (table w) = inl e ->
   requests w' = requests w ++ [ReqSelectSharedWith fid]) /\
  (read_shared_with net_read fid (table w) = inr current ->
   fault_error net_write = Some e ->
   requests w' = requests w ++ [ReqSelectSharedWith fid; update]) /\
  (read_shared_with net_read fid (table w) = inr current ->
   fault_error net_write = None ->
   requests w' =
   requests w ++ [ReqSelectSharedWith fid; update] ++
   match resolved (user r) with
   | Some (uid, mail) =>
       [ReqSelect (Index.fetchFiles_query uid mail no_params)]
   | None => []
   end).
Proof.
  intros Hid Tid Tmail w' update. subst w' update.
  rewrite (handleShare_run B r net_read net_write net_refresh w Hid Tid Tmail).
  destruct (read_shared_with net_read fid (table w)) as [e1|c].
  { split; [reflexivity|]. split; discriminate. }
  cbv zeta. split; [discriminate|].
  destruct (fault_error net_write) as [e2|].
  { split; [|discriminate]. intros H _. injection H as ->.
    cbn. rewrite <- app_assoc. reflexivity. }
  split; [discriminate|]. intros H _. injection H as ->.
  cbn -[Index.fetchFiles].
  match goal with
  | |- context [Index.fetchFiles B r no_params net_refresh ?v] =>
      destruct (fetchFiles_frame B r no_params net_refresh v)
        as (_ & _ & _ & _ & _ & _ & _ & _ & Hreq)
  end.
  rewrite Hreq. cbn [requests]. rewrite <- !app_assoc. reflexivity.
Qed.

Lemma share_requests_witness :
  requests (snd (Index.handleShare sample_backend share_screen
                   (Fails {| message := "timeout" |}) Served Served
                   share_world)) = [ReqSelectSharedWith "f1"].
Proof.
  destruct (@share_requests sample_backend share_screen
              (Fails {| message := "timeout" |}) Served Served share_world
              "f1" {| message := "timeout" |} None eq_refl eq_refl eq_refl)
    as (H & _).
  exact (H eq_refl).
Defined.

(** X16: A share never adds, removes or reorders rows and changes no column
    other than [shared_with]; it leaves the bucket alone.  This holds for
    every state of the screen and every answer of the platform. *)
Theorem share_keeps_rows (B : Backend) (r : Screen)
    (net_read net_write net_refresh : Fault) (w : World) :
  let w' := snd (Index.handleShare B r net_read net_write net_refresh w) in
  map other_columns (table w') = map other_columns (table w) /\
  bucket w' = bucket w.
Proof.
  intros w'.
  destruct (handleShare_table B r net_read net_write net_refresh w)
    as [Hb [Ht | (fid & row & _ & _ & Ht)]]; fold w' in Hb, Ht.
  - rewrite Ht. split; [reflexivity | exact Hb].
  - rewrite Ht. split; [|exact Hb].
    unfold shared_with_set. rewrite map_map. apply map_ext.
    intros x. destruct (has_id fid x); reflexivity.
Qed.

(** X17: The addresses only grow: after a share, whatever happened, every row
    has the addresses it had, in their order, possibly followed by new
    ones. *)
Theorem share_only_grows (B : Backend) (r : Screen)
    (net_read net_write net_refresh : Fault) (w : World) :
  Forall2 grows (table w)
    (table (snd (Index.handleShare B r net_read net_write net_refresh w))).
Proof.
  destruct (handleShare_table B r net_read net_write net_refresh w)
    as [_ [Ht | (fid & row & _ & Hrow & Ht)]]; rewrite Ht.
  - rewrite <- (map_id (table w)) at 2. apply Forall2_map_same.
    intros x _. exists []. symmetry. apply app_nil_r.
  - apply Forall2_map_same. intros x Hin.
    destruct (has_id fid x) eqn:E.
    + assert (Hx : In x (filter (has_id fid) (table w))).
      { apply filter_In. split; assumption. }
      rewrite Hrow in Hx. destruct Hx as [<- | []].
      exists [shareEmail r]. reflexivity.
    + exists []. symmetry. apply app_nil_r.
Qed.

(** X18: Sharing a file id that no row has, or that several rows have, changes
    nothing in the table and sends no update: the read alone is sent, one
    error is shown, and the picked file and the address stay. *)
Theorem share_of_unknown_file (B : Backend) (net_write net_refresh : Fault)
    (w : World) (fid : string) :
  selectedFileId (screen w) = Some fid -> truthy fid = true ->
  truthy (shareEmail (screen w)) = true ->
  length (filter (has_id fid) (table w)) <> 1 ->
  let w' := snd (Index.handleShare B (screen w) Served net_write net_refresh
                   w) in
  table w' = table w /\ screen w' = screen w /\
  requests w' = requests w ++ [ReqSelectSharedWith fid] /\
  exists t, toasts w' = toasts w ++ [t] /\ title t = "Error sharing file".
Proof.
  intros Hid Tid Tmail Hlen w'. subst w'.
  rewrite (handleShare_run B (screen w) Served net_write net_refresh w
             Hid Tid Tmail).
  cbn [read_shared_with].
  destruct (filter (has_id fid) (table w)) as [|row [|row' rows]];
    [| exfalso; apply Hlen; reflexivity |];
    (repeat split; eexists; split; reflexivity).
Qed.

Lemma share_of_unknown_file_witness :
  let s := {| files := []; user := Some alice; selectedFile := None;
              shareEmail := "carol@example.org";
              selectedFileId := Some "no-such-file";
              isUploading := false |} in
  let w := world_of s [notes_txt; photo_png] in
  table (snd (Index.handleShare sample_backend s Served Served Served w)) =
  [notes_txt; photo_png].
Proof.
  intros s w.
  destruct (@share_of_unknown_file sample_backend Served Served w
              "no-such-file" eq_refl eq_refl eq_refl) as (H & _).
  - discriminate.
  - exact H.
Defined.

(** ** How the handlers of [Index.tsx] read the table *)

Lemma reads_app (l1 l2 : list Request) :
  reads (l1 ++ l2) = reads l1 ++ reads l2.
Proof. apply filter_app. Qed.

(** The reads among requests sent after [before]. *)
Lemma new_reads (P : Request -> Prop) (before sent : list Request)
    (q : Request) :
  (forall x, In x (reads sent) -> P x) ->
  In q (reads (before ++ sent)) -> In q (reads before) \/ P q.
Proof.
  intros H Hq. rewrite reads_app in Hq.
  apply in_app_or in Hq as [Hq | Hq]; [left; exact Hq | right; apply H, Hq].
Qed.

Lemma refresh_is_scoped (r : Screen) (p : FetchFilesParams) (x : Request) :
  In x (reads match resolved (user r) with
              | Some (uid, mail) =>
                  [ReqSelect (Index.fetchFiles_query uid mail p)]
              | None => []
              end) ->
  scoped_read r x.
Proof.
  destruct (resolved (user r)) as [[uid mail]|] eqn:E; [|intros []].
  intros [<- | []]. exists uid, mail. do 2 eexists.
  split; [exact E|]. split; [reflexivity | apply query_filters].
Qed.

(** X19: How the handlers of [Index.tsx] read the table, for all
    parameters, states of the screen and answers of the platform.
    [fetchFiles] and [handleUpload] read it only by the select of rows that
    begins with the filter on the owner or the shared address of the user
    of the render.  [handleShare] reads it by that select and by the select
    of [shared_with] of the picked id; this one carries no filter on the
    owner and is sent without looking at the user, so also when there is
    none. *)
Theorem reads_of_the_handlers (B : Backend) (r : Screen)
    (p : FetchFilesParams) (uuid : string) (net1 net2 net3 : Fault)
    (g : Generated) (w : World) (q : Request) (fid : string) :
  (In q (reads (requests (snd (Index.fetchFiles B r p net1 w)))) ->
   In q (reads (requests w)) \/ scoped_read r q) /\
  (In q (reads (requests (snd (Index.handleUpload B r uuid net1 net2 g net3
                                 w)))) ->
   In q (reads (requests w)) \/ scoped_read r q) /\
  (In q (reads (requests (snd (Index.handleShare B r net1 net2 net3 w)))) ->
   In q (reads (requests w)) \/ scoped_read r q \/ read_by_id r q) /\
  (selectedFileId r = Some fid -> fid <> "" -> shareEmail r <> "" ->
   In (ReqSelectSharedWith fid)
      (requests (snd (Index.handleShare B r net1 net2 net3 w)))).
Proof.
  split; [|split; [|split]].
  - destruct (fetchFiles_frame B r p net1 w)
      as (_ & _ & _ & _ & _ & _ & _ & _ & Hreq).
    rewrite Hreq. apply new_reads. apply refresh_is_scoped.
  - destruct (selectedFile r) as [file|] eqn:Hf;
      [destruct (user r) as [u|] eqn:Hu|].
    + rewrite (handleUpload_run B r uuid net1 net2 g net3 w Hf Hu).
      destruct (upload_failure net1 (storage_key uuid file) (bucket w)).
      { cbn. apply new_reads. intros x []. }
      destruct (fault_error net2).
      { cbn. rewrite <- app_assoc. apply new_reads. intros x []. }
      cbn -[Index.fetchFiles resolved].
      match goal with
      | |- context [Index.fetchFiles B r no_params net3 ?v] =>
          destruct (fetchFiles_frame B r no_params net3 v)
            as (_ & _ & _ & _ & _ & _ & _ & _ & Hreq)
      end.
      rewrite Hreq. cbn [requests]. rewrite <- !app_assoc.
      apply new_reads. cbn [app]. intros x Hx.
      apply (refresh_is_scoped r no_params). exact Hx.
    + rewrite handleUpload_guard by (right; exact Hu). tauto.
    + rewrite handleUpload_guard by (left; exact Hf). tauto.
  - destruct (selectedFileId r) as [i|] eqn:Hid.
    2: { rewrite handleShare_guard by (left; rewrite Hid; reflexivity).
         tauto. }
    destruct (truthy i) eqn:Tid.
    2: { rewrite handleShare_guard
           by (left; rewrite Hid; cbn [truthy_opt]; exact Tid). tauto. }
    destruct (truthy (shareEmail r)) eqn:Tmail.
    2: { rewrite handleShare_guard by (right; exact Tmail). tauto. }
    rewrite (handleShare_run B r net1 net2 net3 w Hid Tid Tmail).
    assert (Hby : read_by_id r (ReqSelectSharedWith i)).
    { exists i. split; [exact Hid | reflexivity]. }
    destruct (read_shared_with net1 i (table w)).
    { cbn. apply (new_reads (fun x => scoped_read r x \/ read_by_id r x)).
      intros x [<- | []]. right. exact Hby. }
    cbv zeta. destruct (fault_error net2).
    { cbn. rewrite <- app_assoc.
      apply (new_reads (fun x => scoped_read r x \/ read_by_id r x)).
      intros x [<- | []]. right. exact Hby. }
    cbn -[Index.fetchFiles resolved].
    match goal with
    | |- context [Index.fetchFiles B r no_params net3 ?v] =>
        destruct (fetchFiles_frame B r no_params net3 v)
          as (_ & _ & _ & _ & _ & _ & _ & _ & Hreq)
    end.
    rewrite Hreq. cbn [requests]. rewrite <- !app_assoc.
    apply (new_reads (fun x => scoped_read r x \/ read_by_id r x)).
    cbn [app reads filter is_read].
    intros x [<- | Hx]; [right; exact Hby | left].
    apply (refresh_is_scoped r no_params). exact Hx.
  - intros Hid Nid Nmail.
    assert (Tid : truthy fid = true).
    { unfold truthy. destruct (String.eqb_spec fid ""); [contradiction|].
      reflexivity. }
    assert (Tmail : truthy (shareEmail r) = true).
    { unfold truthy. destruct (String.eqb_spec (shareEmail r) "");
        [contradiction | reflexivity]. }
    rewrite (handleShare_run B r net1 net2 net3 w Hid Tid Tmail).
    destruct (read_shared_with net1 fid (table w)).
    { cbn. apply in_or_app. right. left. reflexivity. }
    cbv zeta. destruct (fault_error net2).
    { cbn. rewrite <- app_assoc. apply in_or_app. right. left. reflexivity. }
    cbn -[Index.fetchFiles resolved].
    match goal with
    | |- context [Index.fetchFiles B r no_params net3 ?v] =>
        destruct (fetchFiles_frame B r no_params net3 v)
          as (_ & _ & _ & _ & _ & _ & _ & _ & Hreq)
    end.
    rewrite Hreq. cbn [requests]. rewrite <- !app_assoc.
    apply in_or_app. right. left. reflexivity.
Qed.

Lemma reads_of_the_handlers_witness :
  let s := {| files := []; user := None; selectedFile := None;
              shareEmail := "carol@example.org";
              selectedFileId := Some "f3"; isUploading := false |} in
  In (ReqSelectSharedWith "f3")
     (requests (snd (Index.handleShare sample_backend s Served Served Served
                       (world_of s [notes_txt; photo_png; private_pdf])))).
Proof.
  intros s.
  apply (@reads_of_the_handlers sample_backend s no_params sample_uuid
           Served Served Served sample_generated
           (world_of s [notes_txt; photo_png; private_pdf])
           (ReqSelectSharedWith "f3") "f3").
  - reflexivity.
  - discriminate.
  - discriminate.
Defined.

(** ** The server action: failures, and what it leaves alone *)

Lemma getFiles_resolved_run (B : Backend) (Json : Type)
    (parseStringify : option (list FileRecord) -> Json)
    (props : FilesAction.Props) (net : Fault) (w : World)
    (uid mail : string) :
  FilesAction.userId props = Some uid -> FilesAction.email props = Some mail ->
  truthy uid = true -> truthy mail = true ->
  FilesAction.getFiles B parseStringify props net w =
  match net with
  | Served =>
      let rows := selected B (getFiles_query uid mail) (table w) in
      (console_log (LogText "UserId: " uid) ;;
       console_log (LogText "Email: " mail) ;;
       send (ReqSelect (getFiles_query uid mail)) ;;
       console_log (LogData (Some rows)) ;;
       ret (FilesAction.Rows (parseStringify (Some rows)))) w
  | Fails e =>
      (console_log (LogText "UserId: " uid) ;;
       console_log (LogText "Email: " mail) ;;
       send (ReqSelect (getFiles_query uid mail)) ;;
       ret (FilesAction.Failure Json
              (or_else (Some (message e)) "Failed to fetch files") false)) w
  | Rejects e =>
      (console_log (LogText "UserId: " uid) ;;
       console_log (LogText "Email: " mail) ;;
       send (ReqSelect (getFiles_query uid mail)) ;;
       console_log (LogError e "Failed to get files") ;;
       throw e) w
  end.
Proof.
  intros Hu Hm Tu Tm. unfold FilesAction.getFiles.
  rewrite Hu, Hm. cbn [truthy_opt interpolate]. rewrite Tu, Tm.
  destruct net; reflexivity.
Qed.

(** X20: When the store answers the select with an error, [getFiles] does not
    throw: it returns the failure object with [success: false] and the
    message of the error, or "Failed to fetch files" when that message is
    empty; nothing but the two ids is logged. *)
Theorem getFiles_error_answer (B : Backend) (Json : Type)
    (parseStringify : option (list FileRecord) -> Json)
    (props : FilesAction.Props) (w : World) (uid mail : string) (e : Error) :
  FilesAction.userId props = Some uid -> FilesAction.email props = Some mail ->
  uid <> "" -> mail <> "" ->
  let out := FilesAction.getFiles B parseStringify props (Fails e) w in
  (message e <> "" ->
   fst out = Normal (FilesAction.Failure Json (message e) false)) /\
  (message e = "" ->
   fst out = Normal (FilesAction.Failure Json "Failed to fetch files" false)) /\
  console (snd out) =
  console w ++ [LogText "UserId: " uid; LogText "Email: " mail].
Proof.
  intros Hu Hm Nu Nm out. subst out.
  assert (Tu : truthy uid = true).
  { unfold truthy. destruct (String.eqb_spec uid ""); [contradiction|].
    reflexivity. }
  assert (Tm : truthy mail = true).
  { unfold truthy. destruct (String.eqb_spec mail ""); [contradiction|].
    reflexivity. }
  rewrite (getFiles_resolved_run B parseStringify props (Fails e) w
             Hu Hm Tu Tm).
  cbn. rewrite <- app_assoc. split; [|split; [|reflexivity]].
  - intros Hne. unfold truthy.
    destruct (String.eqb_spec (message e) ""); [contradiction | reflexivity].
  - intros ->. reflexivity.
Qed.

Lemma getFiles_error_answer_witness :
  fst (FilesAction.getFiles sample_backend (fun rows => rows)
         {| FilesAction.email := Some "alice@example.org";
            FilesAction.userId := Some "u-alice" |}
         (Fails {| message := "" |}) sample_world) =
  Normal (FilesAction.Failure _ "Failed to fetch files" false).
Proof.
  destruct (@getFiles_error_answer sample_backend _ (fun rows => rows)
              {| FilesAction.email := Some "alice@example.org";
                 FilesAction.userId := Some "u-alice" |}
              sample_world "u-alice" "alice@example.org" {| message := "" |}
              eq_refl eq_refl) as (_ & H & _).
  - discriminate.
  - discriminate.
  - exact (H eq_refl).
Defined.

(** X21: When the select is rejected, [getFiles] logs the error with "Failed to
    get files" and throws the same error again: it returns nothing. *)
Theorem getFiles_rethrows (B : Backend) (Json : Type)
    (parseStringify : option (list FileRecord) -> Json)
    (props : FilesAction.Props) (w : World) (uid mail : string) (e : Error) :
  FilesAction.userId props = Some uid -> FilesAction.email props = Some mail ->
  uid <> "" -> mail <> "" ->
  let out := FilesAction.getFiles B parseStringify props (Rejects e) w in
  fst out = Throw e /\
  console (snd out) =
  console w ++ [LogText "UserId: " uid; LogText "Email: " mail;
                LogError e "Failed to get files"].
Proof.
  intros Hu Hm Nu Nm out. subst out.
  assert (Tu : truthy uid = true).
  { unfold truthy. destruct (String.eqb_spec uid ""); [contradiction|].
    reflexivity. }
  assert (Tm : truthy mail = true).
  { unfold truthy. destruct (String.eqb_spec mail ""); [contradiction|].
    reflexivity. }
  rewrite (getFiles_resolved_run B parseStringify props (Rejects e) w
             Hu Hm Tu Tm).
  cbn. rewrite <- !app_assoc. split; reflexivity.
Qed.

Lemma getFiles_rethrows_witness :
  fst (FilesAction.getFiles sample_backend (fun rows => rows)
         {| FilesAction.email := Some "alice@example.org";
            FilesAction.userId := Some "u-alice" |}
         (Rejects {| message := "fetch failed" |}) sample_world) =
  Throw {| message := "fetch failed" |}.
Proof.
  destruct (@getFiles_rethrows sample_backend _ (fun rows => rows)
              {| FilesAction.email := Some "alice@example.org";
                 FilesAction.userId := Some "u-alice" |}
              sample_world "u-alice" "alice@example.org"
              {| message := "fetch failed" |} eq_refl eq_refl) as (H & _).
  - discriminate.
  - discriminate.
  - exact H.
Defined.

(** X22: [getFiles] only reads and logs: for every argument and every answer it
    leaves the table, the bucket, the screen and the notifications as they
    were, and it sends nothing or the one select scoped to the id and the
    address it was given. *)
Theorem getFiles_only_reads (B : Backend) (Json : Type)
    (parseStringify : option (list FileRecord) -> Json)
    (props : FilesAction.Props) (net : Fault) (w : World) :
  let w' := snd (FilesAction.getFiles B parseStringify props net w) in
  table w' = table w /\ bucket w' = bucket w /\ screen w' = screen w /\
  toasts w' = toasts w /\
  (requests w' = requests w \/
   exists uid mail,
     FilesAction.userId props = Some uid /\
     FilesAction.email props = Some mail /\
     requests w' = requests w ++ [ReqSelect (getFiles_query uid mail)]).
Proof.
  intros w'. subst w'.
  destruct (truthy_opt (FilesAction.userId props)) eqn:Tu.
  2: { destruct (getFiles_unresolved B parseStringify props net w
                   (or_introl Tu)) as (e & _ & ->).
       repeat split. left. reflexivity. }
  destruct (truthy_opt (FilesAction.email props)) eqn:Tm.
  2: { destruct (getFiles_unresolved B parseStringify props net w
                   (or_intror Tm)) as (e & _ & ->).
       repeat split. left. reflexivity. }
  destruct (FilesAction.userId props) as [uid|] eqn:Hu; [|discriminate].
  destruct (FilesAction.email props) as [mail|] eqn:Hm; [|discriminate].
  rewrite (getFiles_resolved_run B parseStringify props net w Hu Hm Tu Tm).
  destruct net; (repeat split; right; exists uid, mail; repeat split).
Qed.

(** X23: The server action and the screen agree: for the same user, [getFiles]
    returns the rows that [fetchFiles] of [Index.tsx] lists when it is
    called without parameters, in the same order. *)
Theorem getFiles_agrees_with_fetchFiles (B : Backend) (Json : Type)
    (parseStringify : option (list FileRecord) -> Json)
    (props : FilesAction.Props) (r : Screen) (w : World)
    (uid mail : string) :
  resolved (user r) = Some (uid, mail) ->
  FilesAction.userId props = Some uid -> FilesAction.email props = Some mail ->
  fst (FilesAction.getFiles B parseStringify props Served w) =
  Normal (FilesAction.Rows
            (parseStringify
               (Some (files (screen (snd (Index.fetchFiles B r no_params
                                            Served w))))))).
Proof.
  intros Hr Hu Hm. destruct (resolved_truthy _ Hr) as [Tu Tm].
  rewrite (getFiles_served B parseStringify props w Hu Hm Tu Tm).
  rewrite (fetchFiles_served B r no_params w Hr). reflexivity.
Qed.

Lemma getFiles_agrees_with_fetchFiles_witness :
  fst (FilesAction.getFiles sample_backend (fun rows => rows)
         {| FilesAction.email := Some "alice@example.org";
            FilesAction.userId := Some "u-alice" |} Served sample_world) =
  Normal (FilesAction.Rows (Some [photo_png; notes_txt])).
Proof.
  exact (@getFiles_agrees_with_fetchFiles sample_backend _ (fun rows => rows)
           {| FilesAction.email := Some "alice@example.org";
              FilesAction.userId := Some "u-alice" |}
           (screen sample_world) sample_world "u-alice" "alice@example.org"
           eq_refl eq_refl eq_refl).
Defined.

(** ** The earlier revision lists everything *)

(** X24: [fetchFiles] of the earlier revision sends one select without any
    filter; when it is served, the list is a rearrangement of the whole
    table, newest first, whoever the user is and even without one. *)
Theorem legacy_listing_is_unscoped (B : Backend) (w : World) :
  let w' := snd (IndexLegacy.fetchFiles B Served w) in
  requests w' =
  requests w ++ [ReqSelect {| filters := []; order := Some ("created_at", false);
                              limit_to := None |}] /\
  Permutation (files (screen w')) (table w) /\
  ((forall a b, col_leb B "created_at" a b = true \/
                col_leb B "created_at" b a = true) ->
   newest_first B (files (screen w'))).
Proof.
  split; [reflexivity|]. split.
  - cbn. rewrite arrange_Permutation.
    assert (H : forall l : list FileRecord, filter (fun _ => true) l = l).
    { induction l as [|x l IH]; [reflexivity|]. cbn. rewrite IH. reflexivity. }
    rewrite H. reflexivity.
  - intros Htot. cbn.
    apply (ordered_newest_first B _ Htot).
Qed.

Lemma legacy_listing_is_unscoped_witness :
  newest_first sample_backend
    (files (screen (snd (IndexLegacy.fetchFiles sample_backend Served
                           (world_of initial_screen
                              [notes_txt; photo_png; private_pdf]))))).
Proof.
  apply (@legacy_listing_is_unscoped sample_backend
           (world_of initial_screen [notes_txt; photo_png; private_pdf])).
  intros a b. apply String.leb_total.
Defined.

(** ** Picking a file, and the cells of the table *)

Lemma handleUpload_first_request (B : Backend) (r : Screen) (uuid : string)
    (net_upload net_insert : Fault) (g : Generated) (net_refresh : Fault)
    (w : World) (file : File.t) (u : User.t) :
  selectedFile r = Some file -> user r = Some u ->
  exists more,
    requests (snd (Index.handleUpload B r uuid net_upload net_insert g
                     net_refresh w)) =
    requests w ++ ReqStorageUpload (storage_key uuid file) file :: more.
Proof.
  intros Hf Hu.
  rewrite (handleUpload_run B r uuid net_upload net_insert g net_refresh w
             Hf Hu).
  destruct (upload_failure net_upload (storage_key uuid file) (bucket w)).
  { exists []. reflexivity. }
  destruct (fault_error net_insert).
  { eexists. cbn. rewrite <- app_assoc. reflexivity. }
  cbn -[Index.fetchFiles].
  match goal with
  | |- context [Index.fetchFiles B r no_params net_refresh ?v] =>
      destruct (fetchFiles_frame B r no_params net_refresh v)
        as (_ & _ & _ & _ & _ & _ & _ & _ & Hreq)
  end.
  rewrite Hreq. cbn [requests]. eexists. rewrite <- !app_assoc. reflexivity.
Qed.

(** X25: The file that is uploaded is the first one of the last pick: further
    files of the pick are ignored, and a dialog that is closed without a
    pick keeps the earlier one.  Pressing the button then sends, as its
    first request, the write of that file under its storage key. *)
Theorem picked_file_is_uploaded (B : Backend) (uuid : string)
    (net_upload net_insert : Fault) (g : Generated) (net_refresh : Fault)
    (w : World) (file : File.t) (others : list File.t) (u : User.t) :
  user (screen w) = Some u ->
  let w1 := snd (handleFileChange (Some (file :: others)) w) in
  let w2 := snd (handleFileChange None w1) in
  let w3 := snd (handleFileChange (Some []) w2) in
  selectedFile (screen w3) = Some file /\
  upload_disabled (screen w3) = isUploading (screen w) /\
  exists more,
    requests
      (snd (click (fun s => Index.handleUpload B s uuid net_upload net_insert
                              g net_refresh) w3)) =
    requests w ++ ReqStorageUpload (storage_key uuid file) file :: more.
Proof.
  intros Hu w1 w2 w3. split; [reflexivity|]. split; [reflexivity|].
  unfold click.
  apply (handleUpload_first_request B (screen w3) uuid net_upload net_insert
           g net_refresh w3 (file := file) (u := u)); [reflexivity | exact Hu].
Qed.

Lemma picked_file_is_uploaded_witness :
  exists more,
    requests
      (snd (click (fun s => Index.handleUpload sample_backend s sample_uuid
                              Served Served sample_generated Served)
              (snd (handleFileChange (Some [])
                      (snd (handleFileChange None
                              (snd (handleFileChange (Some [a_txt; readme])
                                      sample_world)))))))) =
    ReqStorageUpload (sample_uuid ++ ".txt")%string a_txt :: more.
Proof.
  destruct (@picked_file_is_uploaded sample_backend sample_uuid Served Served
              sample_generated Served sample_world a_txt [readme] alice
              eq_refl) as (_ & _ & more & H).
  exists more. exact H.
Defined.

Lemma concat_empty (sep : string) (l : list string) :
  sep <> "" -> String.concat sep l = "" -> l = [] \/ l = [""].
Proof.
  intros Hsep. destruct l as [|x [|y l]]; cbn.
  - left. reflexivity.
  - intros ->. right. reflexivity.
  - intros H. destruct x; [|discriminate].
    destruct sep; [contradiction | discriminate].
Qed.

(** X26: The cell "Shared With" of a row shows the addresses joined by a comma
    and a blank.  It shows "Not shared" when the list is null, when it is
    empty, and also when its only entry is the empty address; in every other
    case it shows the joined addresses, which are not empty. *)
Theorem shared_with_cell_cases (F : FileRecord) (l : list string) :
  (shared_with F = None \/ shared_with F = Some [] \/
   shared_with F = Some [""] -> shared_with_cell F = "Not shared") /\
  (shared_with F = Some l -> l <> [] -> l <> [""] ->
   shared_with_cell F = String.concat ", " l /\ shared_with_cell F <> "").
Proof.
  unfold shared_with_cell. split.
  - intros [-> | [-> | ->]]; reflexivity.
  - intros -> H1 H2. cbn [option_map or_else]. unfold truthy.
    destruct (String.eqb_spec (String.concat ", " l) "") as [E|E].
    + assert (Hsep : ", " <> "") by discriminate.
      destruct (@concat_empty ", " l Hsep E) as [-> | ->]; contradiction.
    + split; [reflexivity | exact E].
Qed.

Lemma shared_with_cell_cases_witness :
  shared_with_cell (set_shared_with ["a@x.org"; "b@y.org"] notes_txt) =
  "a@x.org, b@y.org".
Proof.
  destruct (shared_with_cell_cases
              (set_shared_with ["a@x.org"; "b@y.org"] notes_txt)
              ["a@x.org"; "b@y.org"]) as [_ H].
  destruct (H eq_refl) as [E _]; [discriminate | discriminate | exact E].
Defined.

(** ** The effect of the screen *)

(** X27: The effect of a render whose user is not resolved, as the first render
    is (its user is [null]): it sends no request and leaves the list, the
    table and the notifications alone, whatever the address says and
    whoever is signed in.  With a session the user is stored and the route
    stays; without one the route becomes [/auth] and no user is stored.
    The listener is registered in both cases. *)
Theorem mount_effect_loads_nothing (B : Backend) (parseInt : string -> number)
    (r : Screen) (session : option User.t) (sp : SearchParams) (net : Fault)
    (pg : Page) (u : User.t) :
  resolved (user r) = None ->
  let pg' := IndexEffect.effect B parseInt r session sp net pg in
  requests (world pg') = requests (world pg) /\
  files (screen (world pg')) = files (screen (world pg)) /\
  table (world pg') = table (world pg) /\
  toasts (world pg') = toasts (world pg) /\
  subscribed pg' = true /\
  (session = None ->
   route pg' = "/auth" /\ user (screen (world pg')) = user (screen (world pg))) /\
  (session = Some u ->
   route pg' = route pg /\ user (screen (world pg')) = Some u).
Proof.
  intros Hr pg'. subst pg'. unfold IndexEffect.effect, in_world, unawaited.
  cbn [world route subscribed snd].
  rewrite (fetchFiles_unresolved B r _ net _ Hr). cbn [snd].
  destruct session as [v|]; cbn; repeat split; try discriminate;
    congruence.
Qed.

Lemma mount_effect_loads_nothing_witness :
  let pg' := IndexEffect.effect sample_backend sample_parseInt initial_screen
               (Some alice)
               {| sp_query := None; sp_type := None; sp_sort := None;
                  sp_limit := Some "50" |}
               Served (fresh_page [notes_txt; photo_png; private_pdf]) in
  user (screen (world pg')) = Some alice /\
  files (screen (world pg')) = [] /\ requests (world pg') = [].
Proof.
  intros pg'.
  destruct (@mount_effect_loads_nothing sample_backend sample_parseInt
              initial_screen (Some alice)
              {| sp_query := None; sp_type := None; sp_sort := None;
                 sp_limit := Some "50" |}
              Served (fresh_page [notes_txt; photo_png; private_pdf]) alice
              eq_refl) as (Hreq & Hfiles & _ & _ & _ & _ & Huser).
  destruct (Huser eq_refl) as [_ Hu].
  repeat split; assumption.
Defined.

(** X28: The effect of the earlier revision sends its select without
    filter every time, also when nobody is signed in and the route becomes
    [/auth].  When the select is served and somebody is signed in, or the
    answer comes before the one of [auth.getUser()], the list holds the
    whole table.  When nobody is signed in and the answer comes after the
    redirect, the screen is gone and its state is not set. *)
Theorem legacy_mount_effect_selects_all (B : Backend)
    (session : option User.t) (net : Fault) (answered_first : bool)
    (pg : Page) :
  let pg' := IndexLegacyEffect.effect B session net answered_first pg in
  requests (world pg') = requests (world pg) ++ [unscoped_select] /\
  (session = None -> route pg' = "/auth" /\ subscribed pg' = false) /\
  (net = Served -> session <> None \/ answered_first = true ->
   Permutation (files (screen (world pg'))) (table (world pg))) /\
  (session = None -> answered_first = false ->
   screen (world pg') = screen (world pg)).
Proof.
  intros pg'. subst pg'.
  unfold IndexLegacyEffect.effect, in_world, after_unmount, unawaited.
  assert (H : forall l : list FileRecord, filter (fun _ => true) l = l).
  { induction l as [|x l IH]; [reflexivity|]. cbn. rewrite IH. reflexivity. }
  split; [|split; [|split]].
  - destruct answered_first, session, net; reflexivity.
  - intros ->. destruct answered_first; split; reflexivity.
  - intros -> [Hs | ->].
    + destruct session as [u|]; [|contradiction].
      destruct answered_first; cbn; rewrite arrange_Permutation, H;
        reflexivity.
    + destruct session; cbn; rewrite arrange_Permutation, H; reflexivity.
  - intros -> ->. reflexivity.
Qed.

Lemma legacy_mount_effect_selects_all_witness :
  let pg := fresh_page [notes_txt; photo_png; private_pdf] in
  (let pg' := IndexLegacyEffect.effect sample_backend None Served false pg in
   route pg' = "/auth" /\ files (screen (world pg')) = [] /\
   requests (world pg') = [unscoped_select]) /\
  (let pg' := IndexLegacyEffect.effect sample_backend (Some alice) Served
                false pg in
   Permutation (files (screen (world pg')))
     [notes_txt; photo_png; private_pdf]).
Proof.
  intros pg. split.
  - intros pg'.
    destruct (@legacy_mount_effect_selects_all sample_backend None Served
                false pg) as (Hreq & Hroute & _ & Hscreen).
    destruct (Hroute eq_refl) as [Hr _].
    split; [exact Hr|]. split; [|exact Hreq].
    exact (f_equal files (Hscreen eq_refl eq_refl)).
  - intros pg'.
    destruct (@legacy_mount_effect_selects_all sample_backend (Some alice)
                Served false pg) as (_ & _ & Hfiles & _).
    apply Hfiles; [reflexivity | left; discriminate].
Defined.

(** X29: From the address to the query.  When the four parameters are absent or
    empty, the effect calls [fetchFiles] to the same end as a call without
    argument.  The query carries a limit [n] exactly when the [limit]
    parameter is a non-empty text that [parseInt] reads as [n] with
    [1 <= n <= 100]; an empty text is not parsed at all. *)
Theorem address_parameters (B : Backend) (parseInt : string -> number)
    (r : Screen) (sp : SearchParams) (net : Fault) (w : World)
    (uid mail : string) (n : Z) :
  (blank (sp_query sp) -> blank (sp_type sp) -> blank (sp_sort sp) ->
   blank (sp_limit sp) ->
   Index.fetchFiles B r (IndexEffect.effect_params parseInt sp) net w =
   Index.fetchFiles B r no_params net w) /\
  (limit_to (Index.fetchFiles_query uid mail
               (IndexEffect.effect_params parseInt sp)) = Some n <->
   exists l, sp_limit sp = Some l /\ l <> "" /\ parseInt l = Num n /\
             (1 <= n <= 100)%Z).
Proof.
  split.
  - intros Hq Ht Hs Hl.
    assert (E : IndexEffect.effect_params parseInt sp =
                params_sortBy (Some "created_at") no_params).
    { unfold IndexEffect.effect_params.
      destruct Hq as [-> | ->], Ht as [-> | ->], Hs as [-> | ->],
        Hl as [-> | ->]; reflexivity. }
    rewrite E. unfold Index.fetchFiles.
    destruct (resolved (user r)) as [[u m]|]; reflexivity.
  - rewrite query_limit. unfold IndexEffect.effect_params. cbn [limit].
    destruct (sp_limit sp) as [l|].
    2: { split; [discriminate | intros (l & H & _); discriminate]. }
    unfold truthy. destruct (String.eqb_spec l "") as [->|Hl]; cbn [negb].
    { split; [discriminate|]. intros (l & H & Hne & _).
      injection H as <-. contradiction. }
    destruct (parseInt l) as [|z] eqn:Ep.
    { split; [discriminate|]. intros (l' & H & _ & Hp & _).
      injection H as <-. congruence. }
    destruct ((1 <=? z)%Z && (z <=? 100)%Z) eqn:Ez.
    + split.
      * intros H. injection H as <-. exists l. repeat split; try assumption;
          lia.
      * intros (l' & H & _ & Hp & _). injection H as <-.
        rewrite Ep in Hp. injection Hp as <-. reflexivity.
    + split; [discriminate|]. intros (l' & H & _ & Hp & Hn).
      injection H as <-. rewrite Ep in Hp. injection Hp as <-. lia.
Qed.

Lemma address_parameters_witness :
  limit_to (Index.fetchFiles_query "u-alice" "alice@example.org"
              (IndexEffect.effect_params sample_parseInt
                 {| sp_query := None; sp_type := None; sp_sort := None;
                    sp_limit := Some "50 rows" |})) = Some 50%Z.
Proof.
  apply (@address_parameters sample_backend sample_parseInt initial_screen
           {| sp_query := None; sp_type := None; sp_sort := None;
              sp_limit := Some "50 rows" |}
           Served sample_world "u-alice" "alice@example.org" 50).
  exists "50 rows". repeat split; try discriminate; lia.
Defined.

(** X30: Once the effect has run, the event "SIGNED_OUT" sends the route to
    [/auth]; any other event changes nothing, and no event touches the
    state of the screen.  After the cleanup of the effect no event has an
    effect any more. *)
Theorem auth_events (B : Backend) (parseInt : string -> number) (r : Screen)
    (session : option User.t) (sp : SearchParams) (net : Fault) (pg : Page)
    (event : string) :
  let pg' := IndexEffect.effect B parseInt r session sp net pg in
  route (on_auth_event "SIGNED_OUT" pg') = "/auth" /\
  (event <> "SIGNED_OUT" -> on_auth_event event pg' = pg') /\
  world (on_auth_event event pg') = world pg' /\
  on_auth_event event (unsubscribe pg') = unsubscribe pg'.
Proof.
  intros pg'. unfold on_auth_event. cbn [subscribed pg' IndexEffect.effect
    unsubscribe].
  split; [reflexivity|]. split; [|split; [|reflexivity]].
  - intros H. destruct (String.eqb_spec event "SIGNED_OUT");
      [contradiction | reflexivity].
  - destruct (event =? "SIGNED_OUT"); reflexivity.
Qed.

Lemma auth_events_witness :
  let pg' := IndexEffect.effect sample_backend sample_parseInt initial_screen
               (Some alice)
               {| sp_query := None; sp_type := None; sp_sort := None;
                  sp_limit := None |}
               Served (fresh_page [notes_txt]) in
  on_auth_event "TOKEN_REFRESHED" pg' = pg'.
Proof.
  intros pg'.
  apply (@auth_events sample_backend sample_parseInt initial_screen
           (Some alice)
           {| sp_query := None; sp_type := None; sp_sort := None;
              sp_limit := None |}
           Served (fresh_page [notes_txt]) "TOKEN_REFRESHED").
  discriminate.
Defined.
